(** * The Infrar engine's Python front-end: [pkg/parser/ast_parser.py]

    A shallow embedding of the script that turns one Python source text into
    the JSON document consumed by the transformation engine, and the
    properties of it that the specification states.

    Python objects are one type, [pyobj], dictionaries are association lists
    in insertion order, and code that can raise returns in the monad [M].
    The tree and its walker belong to Python's [ast] module: the tree is the
    inductive [ast.node], [ast.walk] is the breadth-first loop of the
    standard library, and the parser itself is a variable of the section
    that holds [parse_python_code].  The interpreter is one whose [ast]
    module has the classes the script names ([Constant] as well as the
    older [Str], [Num] and [NameConstant]); recursion limits are not
    modelled. *)

From Stdlib Require Import ZArith List String Ascii Bool Lia Permutation.
From Stdlib Require Import DecimalString DecimalNat.
Import ListNotations.
Local Open Scope string_scope.
Local Open Scope Z_scope.
Set Warnings "-register-all".

(** ** Python values *)

(** A [float] is a dyadic rational [m * 2^e] or infinity.  The parser only
    produces literals that are finite and not negative, or infinite; a NaN
    is never the value of a literal. *)
Inductive pyfloat : Type :=
| Finite (m e : Z)
| Inf.

(** A [str] is a Rocq string with one character per code point, so the
    embedding covers texts whose code points are below 256. *)
Inductive pyobj : Type :=
| PyNone
| PyBool (b : bool)
| PyInt (z : Z)
| PyFloat (f : pyfloat)
| PyComplex (imag : pyfloat)
| PyStr (s : string)
| PyBytes (s : string)
| PyEllipsis
| PyList (items : list pyobj)
| PyDict (items : list (pyobj * pyobj)).

(** Exceptions: a [SyntaxError] with the attributes the script reads, or
    any other [Exception] with its class name and [str(e)]. *)
Inductive exn : Type :=
| SyntaxError (str : string) (lineno offset text : pyobj)
| Exception (type_name : string) (str : string).

Inductive M (A : Type) : Type :=
| Ok (a : A)
| Raise (e : exn).
Arguments Ok {A} a.
Arguments Raise {A} e.

Definition bind {A B : Type} (m : M A) (k : A -> M B) : M B :=
  match m with
  | Ok a => k a
  | Raise e => Raise e
  end.

Notation "x <- m ;; k" := (bind m (fun x => k))
  (at level 61, m at next level, right associativity).

Definition TypeError (msg : string) : exn := Exception "TypeError" msg.
Definition KeyError (msg : string) : exn := Exception "KeyError" msg.

(** *** Numbers as dictionary keys

    [True == 1 == 1.0 == (1+0j)] in Python and equal numbers hash alike, so
    they are one key of a [dict]. *)
Definition float_eqb (f g : pyfloat) : bool :=
  match f, g with
  | Inf, Inf => true
  | Finite m1 e1, Finite m2 e2 =>
      let e := Z.min e1 e2 in
      (m1 * 2 ^ (e1 - e) =? m2 * 2 ^ (e2 - e))
  | _, _ => false
  end.

Definition float_is_zero (f : pyfloat) : bool :=
  match f with
  | Finite m _ => m =? 0
  | Inf => false
  end.

(** The real number a [bool], [int] or [float] stands for. *)
Definition as_real (o : pyobj) : option pyfloat :=
  match o with
  | PyBool b => Some (Finite (if b then 1 else 0) 0)
  | PyInt z => Some (Finite z 0)
  | PyFloat f => Some f
  | _ => None
  end.

(** [a == b] for the objects that can be keys. *)
Definition py_eqb (a b : pyobj) : bool :=
  match a, b with
  | PyNone, PyNone => true
  | PyEllipsis, PyEllipsis => true
  | PyStr s, PyStr t => String.eqb s t
  | PyBytes s, PyBytes t => String.eqb s t
  | PyComplex i, PyComplex j => float_eqb i j
  | PyComplex i, _ =>
      match as_real b with
      | Some r => float_is_zero i && float_is_zero r
      | None => false
      end
  | _, PyComplex j =>
      match as_real a with
      | Some r => float_is_zero j && float_is_zero r
      | None => false
      end
  | _, _ =>
      match as_real a, as_real b with
      | Some r, Some s => float_eqb r s
      | _, _ => false
      end
  end.

(** *** Dictionaries *)

Definition hashable (o : pyobj) : bool :=
  match o with
  | PyList _ | PyDict _ => false
  | _ => true
  end.

Definition type_name (o : pyobj) : string :=
  match o with
  | PyNone => "NoneType"
  | PyBool _ => "bool"
  | PyInt _ => "int"
  | PyFloat _ => "float"
  | PyComplex _ => "complex"
  | PyStr _ => "str"
  | PyBytes _ => "bytes"
  | PyEllipsis => "ellipsis"
  | PyList _ => "list"
  | PyDict _ => "dict"
  end.

(** Storing under a key that is already there keeps the position and the
    old key object and replaces the value; a new key goes to the end. *)
Fixpoint dict_store (d : list (pyobj * pyobj)) (k v : pyobj)
  : list (pyobj * pyobj) :=
  match d with
  | [] => [(k, v)]
  | (k', v') :: rest =>
      if py_eqb k' k then (k', v) :: rest
      else (k', v') :: dict_store rest k v
  end.

Fixpoint dict_find (d : list (pyobj * pyobj)) (k : pyobj) : option pyobj :=
  match d with
  | [] => None
  | (k', v') :: rest => if py_eqb k' k then Some v' else dict_find rest k
  end.

(** [d[k] = v] *)
Definition setitem (d k v : pyobj) : M pyobj :=
  match d with
  | PyDict items =>
      if hashable k then Ok (PyDict (dict_store items k v))
      else Raise (TypeError ("unhashable type: '" ++ type_name k ++ "'"))
  | _ =>
      Raise (TypeError ("'" ++ type_name d
                        ++ "' object does not support item assignment"))
  end.

(** [d[k]].  The message of a [KeyError] is the [repr] of the key; the
    script subscripts with string constants only, and for any other key the
    class name stands in for the [repr]. *)
Definition getitem (d k : pyobj) : M pyobj :=
  match d with
  | PyDict items =>
      if hashable k then
        match dict_find items k with
        | Some v => Ok v
        | None =>
            Raise (KeyError match k with
                            | PyStr s => "'" ++ s ++ "'"
                            | _ => type_name k
                            end)
        end
      else Raise (TypeError ("unhashable type: '" ++ type_name k ++ "'"))
  | _ =>
      Raise (TypeError ("'" ++ type_name d ++ "' object is not subscriptable"))
  end.

(** [k in d] and the keys of [d], for stating which fields a record has. *)
Definition has_key (d : pyobj) (k : string) : bool :=
  match d with
  | PyDict items =>
      match dict_find items (PyStr k) with
      | Some _ => true
      | None => false
      end
  | _ => false
  end.

Definition keys (d : pyobj) : list pyobj :=
  match d with
  | PyDict items => map fst items
  | _ => []
  end.

(** [isinstance(value, bool)] and friends; [bool] is a subclass of [int]. *)
Definition isinstance_bool (v : pyobj) : bool :=
  match v with PyBool _ => true | _ => false end.
Definition isinstance_str (v : pyobj) : bool :=
  match v with PyStr _ => true | _ => false end.
Definition isinstance_int (v : pyobj) : bool :=
  match v with PyInt _ | PyBool _ => true | _ => false end.
Definition isinstance_float (v : pyobj) : bool :=
  match v with PyFloat _ => true | _ => false end.
Definition is_None (v : pyobj) : bool :=
  match v with PyNone => true | _ => false end.

(** ** The syntax tree of Python's [ast] module *)

Module ast.

Record alias : Type := { name : string; asname : option string }.

(** The node classes the script tests for, [keyword] (a node of its own
    between a call and a keyword argument's value), and [Other] for every
    other class, with its child nodes in field order.  [lineno] and
    [col_offset] are kept where the script reads them.  [Str], [Num] and
    [NameConstant] are the literal nodes of interpreters before 3.8, which
    produce no [Constant]. *)
Inductive node : Type :=
| Module (body : list node)
| Import (lineno : Z) (names : list alias)
| ImportFrom (lineno : Z) (module : option string) (names : list alias)
| Constant (value : pyobj)
| Str (s : string)
| Num (n : pyobj)
| NameConstant (value : pyobj)
| Name (id : string)
| List (elts : list node)
| Dict (keys : list (option node)) (values : list node)
| Attribute (value : node) (attr : string)
| Call (lineno col_offset : Z) (func : node) (args : list node)
       (keywords : list (option string * node))
| keyword (arg : option string) (value : node)
| Other (children : list node).

Definition optional (k : option node) : list node :=
  match k with
  | Some n => [n]
  | None => []
  end.

(** [ast.iter_child_nodes]: the fields that are nodes and the nodes inside
    the fields that are lists, in field order; a [None] in a list (the key
    of a [**] entry of a mapping literal) is not a node.  The leaves that no
    extractor looks at ([alias], the [Load] context of a name) are left
    out: dropping leaves does not change the order of the other nodes. *)
Definition iter_child_nodes (n : node) : list node :=
  match n with
  | Module body => body
  | Import _ _ | ImportFrom _ _ _ => []
  | Constant _ | Str _ | Num _ | NameConstant _ | Name _ => []
  | List elts => elts
  | Dict keys values => flat_map optional keys ++ values
  | Attribute value _ => [value]
  | Call _ _ func args keywords =>
      func :: args ++ map (fun kw => keyword (fst kw) (snd kw)) keywords
  | keyword _ value => [value]
  | Other children => children
  end.

(** All nodes of a tree, parents first. *)
Fixpoint preorder (n : node) : list node :=
  n ::
  match n with
  | Module body => flat_map preorder body
  | Import _ _ | ImportFrom _ _ _ => []
  | Constant _ | Str _ | Num _ | NameConstant _ | Name _ => []
  | List elts => flat_map preorder elts
  | Dict keys values =>
      flat_map (fun k => match k with
                         | Some k => preorder k
                         | None => []
                         end) keys
      ++ flat_map preorder values
  | Attribute value _ => preorder value
  | Call _ _ func args keywords =>
      preorder func ++ flat_map preorder args
      ++ flat_map (fun kw => keyword (fst kw) (snd kw) :: preorder (snd kw))
                  keywords
  | keyword _ value => preorder value
  | Other children => flat_map preorder children
  end.

(** [ast.walk]: a queue that starts with the root; the node at the front is
    taken, its children go to the back, and the node is yielded.  One node
    leaves the queue per step, so the number of nodes is fuel enough. *)
Fixpoint walk_queue (fuel : nat) (todo : list node) : list node :=
  match fuel, todo with
  | S fuel, n :: todo => n :: walk_queue fuel (todo ++ iter_child_nodes n)
  | _, _ => []
  end.

Definition walk (tree : node) : list node :=
  walk_queue (Datatypes.length (preorder tree)) [tree].

End ast.

(** ** Strings *)

(** [str.isspace] on the code points below 256. *)
Definition isspace (c : ascii) : bool :=
  let n := nat_of_ascii c in
  (((9 <=? n) && (n <=? 13)) || ((28 <=? n) && (n <=? 32))
   || (n =? 133) || (n =? 160))%nat.

Fixpoint lstrip (s : string) : string :=
  match s with
  | String c rest => if isspace c then lstrip rest else s
  | EmptyString => EmptyString
  end.

Fixpoint rstrip (s : string) : string :=
  match s with
  | String c rest =>
      match rstrip rest with
      | EmptyString => if isspace c then EmptyString else String c EmptyString
      | kept => String c kept
      end
  | EmptyString => EmptyString
  end.

(** [s.strip()] *)
Definition strip (s : string) : string := rstrip (lstrip s).

(** [s.split('\n')]: the text up to the first line feed, and the rest split
    the same way; the last piece may be empty. *)
Fixpoint split_lines (s : string) : list string :=
  match s with
  | EmptyString => [EmptyString]
  | String c rest =>
      if Ascii.eqb c "010"%char then EmptyString :: split_lines rest
      else
        match split_lines rest with
        | line :: lines => String c line :: lines
        | [] => [String c EmptyString]
        end
  end.

(** [f"arg_{i}"] *)
Definition arg_key (i : nat) : string :=
  "arg_" ++ NilEmpty.string_of_uint (Nat.to_uint i).
Arguments arg_key : simpl never.

(** [enumerate(l)], counting from [i]. *)
Fixpoint enumerate {A : Type} (i : nat) (l : list A) : list (nat * A) :=
  match l with
  | [] => []
  | x :: rest => (i, x) :: enumerate (S i) rest
  end.

(** A [for] loop whose body can raise: the state after the last element,
    or the first exception. *)
Fixpoint for_each {A S : Type} (body : S -> A -> M S) (l : list A) (s : S)
  : M S :=
  match l with
  | [] => Ok s
  | x :: rest => s' <- body s x ;; for_each body rest s'
  end.

(** [x or ""] for [x] a string or [None]: an empty [x] is falsy and gives
    the empty string as well. *)
Definition or_empty (x : option string) : string :=
  match x with
  | Some s => s
  | None => ""
  end.

Definition optional_str (x : option string) : pyobj :=
  match x with
  | Some s => PyStr s
  | None => PyNone
  end.

(** ** The script *)

Definition get_value_type (value : pyobj) : string :=
  if is_None value then "none"
  else if isinstance_bool value then "bool"
  else if isinstance_str value then "string"
  else if isinstance_int value || isinstance_float value then "number"
  else "unknown".

(** The literal [{"type": t, "value": v}]. *)
Definition type_value (t : string) (v : pyobj) : pyobj :=
  PyDict [(PyStr "type", PyStr t); (PyStr "value", v)].

Section Script.

(** [str(n)] of a number, Python's own. *)
Variable py_str : pyobj -> string.

(** [ast.parse]: the tree, or the exception raised. *)
Variable ast_parse : string -> M ast.node.

(** [[f(x) for x in l]] over the results [f(x)], left to right: the list
    of the values, or the first exception. *)
Fixpoint list_comprehension (results : list (M pyobj)) : M (list pyobj) :=
  match results with
  | [] => Ok []
  | r :: results =>
      v <- r ;;
      vs <- list_comprehension results ;;
      Ok (v :: vs)
  end.

(** [{extract_value(k)["value"]: extract_value(v) for k, v in zip(...)}]
    over the results of [extract_value] on the keys and on the values.  An
    entry evaluates its key, then its value, then stores (the order of the
    interpreters from 3.8 on). *)
Fixpoint dict_comprehension (entries : list (M pyobj * M pyobj)) (d : pyobj)
  : M pyobj :=
  match entries with
  | [] => Ok d
  | (k, v) :: entries =>
      kv <- k ;;
      key <- getitem kv (PyStr "value") ;;
      vv <- v ;;
      d <- setitem d key vv ;;
      dict_comprehension entries d
  end.

(** The key of a [**] entry of a mapping literal is [None], an instance of
    no node class: [extract_value(None)] takes the last branch. *)
Fixpoint extract_value (node : ast.node) : M pyobj :=
  match node with
  | ast.Constant value => Ok (type_value (get_value_type value) value)
  | ast.Str s => Ok (type_value "string" (PyStr s))
  | ast.Num n => Ok (type_value "number" (PyStr (py_str n)))
  | ast.NameConstant value => Ok (type_value (get_value_type value) value)
  | ast.Name id => Ok (type_value "variable" (PyStr id))
  | ast.List elts =>
      value <- list_comprehension (map extract_value elts) ;;
      Ok (type_value "list" (PyList value))
  | ast.Dict keys values =>
      value <- dict_comprehension
                 (combine
                    (map (fun k => match k with
                                   | Some k => extract_value k
                                   | None => Ok (type_value "unknown" PyNone)
                                   end) keys)
                    (map extract_value values))
                 (PyDict []) ;;
      Ok (type_value "dict" value)
  | _ => Ok (type_value "unknown" PyNone)
  end.

Definition import_record (module : string) (names : list string)
    (alias : string) (lineno : Z) : pyobj :=
  PyDict [(PyStr "module", PyStr module);
          (PyStr "names", PyList (map PyStr names));
          (PyStr "alias", PyStr alias);
          (PyStr "lineno", PyInt lineno)].

(** The body of the loop of [extract_imports]. *)
Definition extract_imports_body (imports : list pyobj) (node : ast.node)
  : list pyobj :=
  match node with
  | ast.Import lineno names =>
      fold_left
        (fun (imports : list pyobj) alias =>
           (imports ++ [import_record (ast.name alias) [ast.name alias]
                                      (or_empty (ast.asname alias)) lineno])%list)
        names imports
  | ast.ImportFrom lineno module names =>
      let module := or_empty module in
      let names := map ast.name names in
      (imports ++ [import_record module names "" lineno])%list
  | _ => imports
  end.

Definition extract_imports (tree : ast.node) : list pyobj :=
  fold_left extract_imports_body (ast.walk tree) [].

(** The [while] loop that climbs an attribute chain: the names collected,
    root-most first, and the node the loop stops at. *)
Fixpoint attribute_path (current : ast.node) (parts : list string)
  : list string * ast.node :=
  match current with
  | ast.Attribute value attr => attribute_path value (attr :: parts)
  | _ => (parts, current)
  end.

(** [call_info["arguments"][key] = v] *)
Definition setitem_arguments (call_info key v : pyobj) : M pyobj :=
  arguments <- getitem call_info (PyStr "arguments") ;;
  arguments <- setitem arguments key v ;;
  setitem call_info (PyStr "arguments") arguments.

(** The body of the loop of [extract_calls]. *)
Definition extract_calls_body (source_lines : list string)
    (calls : list pyobj) (node : ast.node) : M (list pyobj) :=
  match node with
  | ast.Call lineno col_offset func args keywords =>
      let call_info :=
        PyDict [(PyStr "lineno", PyInt lineno);
                (PyStr "col_offset", PyInt col_offset);
                (PyStr "function", PyNone);
                (PyStr "module", PyNone);
                (PyStr "arguments", PyDict [])] in
      call_info <-
        match func with
        | ast.Name id => setitem call_info (PyStr "function") (PyStr id)
        | ast.Attribute value attr =>
            call_info <- setitem call_info (PyStr "function") (PyStr attr) ;;
            let (parts, current) := attribute_path value [] in
            match current with
            | ast.Name id =>
                let parts := id :: parts in
                setitem call_info (PyStr "module")
                        (PyStr (String.concat "." parts))
            | _ => Ok call_info
            end
        | _ => Ok call_info
        end ;;
      call_info <-
        for_each (fun call_info '(i, arg) =>
                    v <- extract_value arg ;;
                    setitem_arguments call_info (PyStr (arg_key i)) v)
                 (enumerate 0 args) call_info ;;
      call_info <-
        for_each (fun call_info '(arg, value) =>
                    v <- extract_value value ;;
                    setitem_arguments call_info (optional_str arg) v)
                 keywords call_info ;;
      call_info <-
        (if (0 <=? lineno - 1)
            && (lineno - 1 <? Z.of_nat (Datatypes.length source_lines))
         then setitem call_info (PyStr "source_code")
                (PyStr (strip (nth (Z.to_nat (lineno - 1)) source_lines "")))
         else Ok call_info) ;;
      Ok (calls ++ [call_info])%list
  | _ => Ok calls
  end.

Definition extract_calls (tree : ast.node) (source_lines : list string)
  : M (list pyobj) :=
  for_each (extract_calls_body source_lines) (ast.walk tree) [].

Definition parse_python_code (source_code : string) : pyobj :=
  match
    tree <- ast_parse source_code ;;
    let source_lines := split_lines source_code in
    let imports := extract_imports tree in
    calls <- extract_calls tree source_lines ;;
    Ok (PyDict [(PyStr "language", PyStr "python");
                (PyStr "imports", PyList imports);
                (PyStr "calls", PyList calls);
                (PyStr "source_code", PyStr source_code);
                (PyStr "success", PyBool true);
                (PyStr "error", PyNone)])
  with
  | Ok result => result
  | Raise (SyntaxError str lineno offset text) =>
      PyDict [(PyStr "success", PyBool false);
              (PyStr "error",
               PyDict [(PyStr "type", PyStr "SyntaxError");
                       (PyStr "message", PyStr str);
                       (PyStr "lineno", lineno);
                       (PyStr "offset", offset);
                       (PyStr "text", text)])]
  | Raise (Exception type_name str) =>
      PyDict [(PyStr "success", PyBool false);
              (PyStr "error",
               PyDict [(PyStr "type", PyStr type_name);
                       (PyStr "message", PyStr str)])]
  end.

End Script.

(** ** Vocabulary of the properties *)

(** A key of a mapping literal whose normalized value can be a dictionary
    key: anything but a list or mapping literal (and a constant whose value
    is hashable, as every parsed constant is). *)
Definition scalar_key (k : option ast.node) : bool :=
  match k with
  | Some (ast.List _) | Some (ast.Dict _ _) => false
  | Some (ast.Constant value) | Some (ast.NameConstant value) => hashable value
  | _ => true
  end.

(** Every mapping literal that [extract_value] reaches has scalar keys. *)
Fixpoint keys_hashable (n : ast.node) : bool :=
  match n with
  | ast.List elts => forallb keys_hashable elts
  | ast.Dict keys values =>
      forallb scalar_key keys && forallb keys_hashable values
  | _ => true
  end.

(** The node shapes [extract_value] has a branch for. *)
Definition recognized (n : ast.node) : bool :=
  match n with
  | ast.Constant _ | ast.Str _ | ast.Num _ | ast.NameConstant _
  | ast.Name _ | ast.List _ | ast.Dict _ _ => true
  | _ => false
  end.

Definition is_call (n : ast.node) : bool :=
  match n with
  | ast.Call _ _ _ _ _ => true
  | _ => false
  end.

Definition is_attribute (n : ast.node) : bool :=
  match n with
  | ast.Attribute _ _ => true
  | _ => false
  end.

(** The arguments of a call, positional and keyword alike, normalize
    without a fault. *)
Definition call_hashable (n : ast.node) : bool :=
  match n with
  | ast.Call _ _ _ args keywords =>
      forallb keys_hashable args
      && forallb (fun kw => keys_hashable (snd kw)) keywords
  | _ => true
  end.

Definition calls_hashable (tree : ast.node) : bool :=
  forallb call_hashable (ast.preorder tree).

(** The expression [root.n1.n2...nk]. *)
Definition attribute_chain (root : ast.node) (names : list string) : ast.node :=
  fold_left ast.Attribute names root.

(** The keys a dictionary of arguments can have: a string or [None]. *)
Definition str_or_none (k : pyobj) : bool :=
  match k with
  | PyStr _ | PyNone => true
  | _ => false
  end.

Definition keyword_name_dec (a b : option string) : {a = b} + {a <> b}.
Proof. decide equality. apply string_dec. Defined.

(** The number of different names among the keyword arguments. *)
Definition distinct_keywords (keywords : list (option string * ast.node)) : nat :=
  Datatypes.length (nodup keyword_name_dec (map fst keywords)).

(** [str] on the integers, enough of Python's [str] for the trees below. *)
Definition str_of_int (o : pyobj) : string :=
  match o with
  | PyInt z => NilEmpty.string_of_int (Z.to_int z)
  | _ => ""
  end.

(** The record of a call while its arguments are collected, and the pieces
    the loop body puts into it. *)
Definition call_info_fields (lineno col_offset : Z) (function module : pyobj)
    (arguments : list (pyobj * pyobj)) : list (pyobj * pyobj) :=
  [(PyStr "lineno", PyInt lineno);
   (PyStr "col_offset", PyInt col_offset);
   (PyStr "function", function);
   (PyStr "module", module);
   (PyStr "arguments", PyDict arguments)].

Definition callee_function (func : ast.node) : pyobj :=
  match func with
  | ast.Name id => PyStr id
  | ast.Attribute _ attr => PyStr attr
  | _ => PyNone
  end.

Definition callee_module (func : ast.node) : pyobj :=
  match func with
  | ast.Attribute value _ =>
      match attribute_path value [] with
      | (parts, ast.Name id) => PyStr (String.concat "." (id :: parts))
      | _ => PyNone
      end
  | _ => PyNone
  end.

Definition positional_step (py_str : pyobj -> string)
    (arguments : list (pyobj * pyobj)) (arg : nat * ast.node)
  : M (list (pyobj * pyobj)) :=
  v <- extract_value py_str (snd arg) ;;
  Ok (dict_store arguments (PyStr (arg_key (fst arg))) v).

Definition keyword_step (py_str : pyobj -> string)
    (arguments : list (pyobj * pyobj)) (kw : option string * ast.node)
  : M (list (pyobj * pyobj)) :=
  v <- extract_value py_str (snd kw) ;;
  Ok (dict_store arguments (optional_str (fst kw)) v).

Definition source_code_field (lineno : Z) (source_lines : list string)
  : list (pyobj * pyobj) :=
  if (0 <=? lineno - 1)
     && (lineno - 1 <? Z.of_nat (Datatypes.length source_lines))
  then [(PyStr "source_code",
         PyStr (strip (nth (Z.to_nat (lineno - 1)) source_lines "")))]
  else [].

(** The entries [arg_i: v_i], [arg_(i+1): v_(i+1)], ... of the values. *)
Definition positional_entries (i : nat) (values : list pyobj)
  : list (pyobj * pyobj) :=
  map (fun iv => (PyStr (arg_key (fst iv)), snd iv)) (enumerate i values).

Definition str_keys (d : list (pyobj * pyobj)) : Prop :=
  Forall (fun kv => str_or_none (fst kv) = true) d.

(** ** Example texts and their trees

    The trees [ast.parse] builds for a few one-line texts (an expression
    statement is an [Other] node around its expression), and a front end
    that knows these texts. *)
Module Examples.

Import ast.

(** [from pkg.storage import upload, download] *)
Definition scenario_A_tree : node :=
  Module [ImportFrom 1 (Some "pkg.storage")
            [{| name := "upload"; asname := None |};
             {| name := "download"; asname := None |}]].

(** [pkg.storage.upload(x)] *)
Definition scenario_C_call : node :=
  Call 1 0 (Attribute (Attribute (Name "pkg") "storage") "upload")
       [Name "x"] [].

(** [f(g(1))] *)
Definition scenario_E_tree : node :=
  Module [Other [Call 1 0 (Name "f")
                   [Call 1 2 (Name "g") [Constant (PyInt 1)] []] []]].

(** [{[1]: 2}] and [f({[1]: 2})] *)
Definition list_key_dict : node :=
  Dict [Some (List [Constant (PyInt 1)])] [Constant (PyInt 2)].

Definition list_key_tree : node :=
  Module [Other [Call 1 0 (Name "f") [list_key_dict] []]].

(** [{"a": [1, x], **rest}] *)
Definition scalar_key_dict : node :=
  Dict [Some (Constant (PyStr "a")); None]
       [List [Constant (PyInt 1); Name "x"]; Name "rest"].

(** [f(1, arg_0=2)] *)
Definition colliding_call : node :=
  Call 1 0 (Name "f") [Constant (PyInt 1)]
       [(Some "arg_0", Constant (PyInt 2))].

(** [upload(x, bucket='b', source='/tmp/x')] *)
Definition upload_call : node :=
  Call 1 0 (Name "upload") [Name "x"]
       [(Some "bucket", Constant (PyStr "b"));
        (Some "source", Constant (PyStr "/tmp/x"))].


(** The parses of [f(g(1))] and [f({[1]: 2})]; every other text is
    answered like the unterminated call [f(]. *)
Definition sample_parse (source_code : string) : M node :=
  if String.eqb source_code "f(g(1))" then Ok scenario_E_tree
  else if String.eqb source_code "f({[1]: 2})" then Ok list_key_tree
  else Raise (SyntaxError "'(' was never closed (<unknown>, line 1)"
                          (PyInt 1) (PyInt 2) (PyStr "f(")).

End Examples.

(** ** Vocabulary of the further properties *)

(** A typed value as the normalizer builds it: the two fields [type] and
    [value], the type one of the eight kinds and the value of the shape
    the kind goes with.  A number is an [int] (no [bool]) or a [float], or
    the text of one (the older [Num] node); the elements of a list and the
    values of a dictionary are typed values again, and the keys of a
    dictionary are hashable.  An unknown goes with any value: [None] for a
    node shape without a branch, the constant itself for a constant that is
    no text, number, boolean or [None]. *)
Fixpoint well_typed (r : pyobj) : bool :=
  match r with
  | PyDict [(PyStr k1, PyStr t); (PyStr k2, v)] =>
      String.eqb k1 "type" && String.eqb k2 "value"
      && (if String.eqb t "none" then is_None v
          else if String.eqb t "bool" then isinstance_bool v
          else if String.eqb t "string" then isinstance_str v
          else if String.eqb t "number" then
            (isinstance_int v && negb (isinstance_bool v))
            || isinstance_float v || isinstance_str v
          else if String.eqb t "variable" then isinstance_str v
          else if String.eqb t "list" then
            match v with
            | PyList items => forallb well_typed items
            | _ => false
            end
          else if String.eqb t "dict" then
            match v with
            | PyDict items =>
                forallb (fun kv => hashable (fst kv) && well_typed (snd kv))
                        items
            | _ => false
            end
          else String.eqb t "unknown")
  | _ => false
  end.

(** Every mapping literal that [extract_value] reaches has as many keys as
    values, as every parsed one has. *)
Fixpoint aligned (n : ast.node) : bool :=
  match n with
  | ast.List elts => forallb aligned elts
  | ast.Dict keys values =>
      Nat.eqb (Datatypes.length keys) (Datatypes.length values)
      && forallb aligned values
  | _ => true
  end.

(** [extract_value(k)] for a key [k] of a mapping literal; the key of a
    double-starred entry is [None] and takes the last branch. *)
Definition extract_key (py_str : pyobj -> string) (k : option ast.node)
  : M pyobj :=
  match k with
  | Some k => extract_value py_str k
  | None => Ok (type_value "unknown" PyNone)
  end.

(** No value of the list is equal, as a Python value, to a later one. *)
Definition distinct_values (l : list pyobj) : Prop :=
  ForallOrdPairs (fun a b => py_eqb a b = false) l.

(** The keys seen so far against the entries kept: an entry is missing as
    soon as a key was equal to an earlier one, and only then. *)
Definition merge_invariant (seen : list pyobj) (items : list (pyobj * pyobj))
  : Prop :=
  (Datatypes.length items <= Datatypes.length seen)%nat
  /\ (Datatypes.length items = Datatypes.length seen -> map fst items = seen)
  /\ (distinct_values seen -> map fst items = seen).

(** The five fields every call record has, in order. *)
Definition call_record_keys : list pyobj :=
  [PyStr "lineno"; PyStr "col_offset"; PyStr "function"; PyStr "module";
   PyStr "arguments"].

(** [1 <= lineno <= len(source_lines)] *)
Definition line_in_range (lineno : Z) (source_lines : list string) : bool :=
  (1 <=? lineno) && (lineno <=? Z.of_nat (Datatypes.length source_lines)).

(** The text neither starts nor ends with a white space character. *)
Definition starts_with_space (s : string) : bool :=
  match s with
  | String c _ => isspace c
  | EmptyString => false
  end.

Fixpoint ends_with_space (s : string) : bool :=
  match s with
  | EmptyString => false
  | String c EmptyString => isspace c
  | String _ rest => ends_with_space rest
  end.

Fixpoint has_line_feed (s : string) : bool :=
  match s with
  | EmptyString => false
  | String c rest => Ascii.eqb c "010"%char || has_line_feed rest
  end.

(** The import records a node stands for. *)
Definition is_import (n : ast.node) : bool :=
  match n with
  | ast.Import _ _ | ast.ImportFrom _ _ _ => true
  | _ => false
  end.

(** More example texts. *)
Module MoreExamples.

Import ast.

(** [import os, sys as s] *)
Definition plain_import : node :=
  Import 1 [{| name := "os"; asname := None |};
            {| name := "sys"; asname := Some "s" |}].

Definition plain_import_tree : node := Module [plain_import].

(** [f()()]: the callee of the outer call is a call. *)
Definition call_of_call : node :=
  Call 1 0 (Call 1 0 (Name "f") [] []) [] [].

(** The two lines [def g():] and [    upload(x)], and the call of the
    second line. *)
Definition indented_text : string :=
  "def g():" ++ String "010"%char "    upload(x)".

Definition indented_call : node :=
  Call 2 4 (Name "upload") [Name "x"] [].

(** [{1: a, True: b}]: two pairs under keys that are equal. *)
Definition equal_keys_dict : node :=
  Dict [Some (Constant (PyInt 1)); Some (Constant (PyBool true))]
       [Name "a"; Name "b"].

(** The calls of [f(g(1))]. *)
Definition inner_call : node :=
  Call 1 2 (Name "g") [Constant (PyInt 1)] [].

Definition outer_call : node :=
  Call 1 0 (Name "f") [inner_call] [].

End MoreExamples.

(** ** The walk reaches every node once *)

Section Walk.

Import ast.

Variable P : node -> Prop.
Hypothesis HModule : forall body, Forall P body -> P (Module body).
Hypothesis HImport : forall lineno names, P (Import lineno names).
Hypothesis HImportFrom :
  forall lineno module names, P (ImportFrom lineno module names).
Hypothesis HConstant : forall value, P (Constant value).
Hypothesis HStr : forall s, P (Str s).
Hypothesis HNum : forall n, P (Num n).
Hypothesis HNameConstant : forall value, P (NameConstant value).
Hypothesis HName : forall id, P (Name id).
Hypothesis HList : forall elts, Forall P elts -> P (List elts).
Hypothesis HDict :
  forall keys values,
    Forall (fun k => match k with Some n => P n | None => True end) keys ->
    Forall P values -> P (Dict keys values).
Hypothesis HAttribute : forall value attr, P value -> P (Attribute value attr).
Hypothesis HCall :
  forall lineno col_offset func args keywords,
    P func -> Forall P args -> Forall (fun kw => P (snd kw)) keywords ->
    P (Call lineno col_offset func args keywords).
Hypothesis Hkeyword : forall arg value, P value -> P (keyword arg value).
Hypothesis HOther : forall children, Forall P children -> P (Other children).

(** Induction on a tree, with the property of every node of the lists. *)
Fixpoint node_induction (n : node) : P n :=
  let all := fix all (l : list node) : Forall P l :=
    match l with
    | [] => Forall_nil P
    | x :: l => Forall_cons x (node_induction x) (all l)
    end in
  match n with
  | Module body => HModule body (all body)
  | Import lineno names => HImport lineno names
  | ImportFrom lineno module names => HImportFrom lineno module names
  | Constant value => HConstant value
  | Str s => HStr s
  | Num n => HNum n
  | NameConstant value => HNameConstant value
  | Name id => HName id
  | List elts => HList elts (all elts)
  | Dict keys values =>
      HDict keys values
        ((fix all_keys (l : list (option node))
            : Forall (fun k => match k with Some n => P n | None => True end)
                     l :=
            match l with
            | [] => Forall_nil _
            | Some k :: l => Forall_cons (Some k) (node_induction k) (all_keys l)
            | None :: l => Forall_cons None I (all_keys l)
            end) keys)
        (all values)
  | Attribute value attr => HAttribute value attr (node_induction value)
  | Call lineno col_offset func args keywords =>
      HCall lineno col_offset func args keywords (node_induction func)
        (all args)
        ((fix all_keywords (l : list (option string * node))
            : Forall (fun kw => P (snd kw)) l :=
            match l with
            | [] => Forall_nil _
            | kw :: l =>
                Forall_cons kw (node_induction (snd kw)) (all_keywords l)
            end) keywords)
  | keyword arg value => Hkeyword arg value (node_induction value)
  | Other children => HOther children (all children)
  end.

End Walk.

Lemma flat_map_preorder_optional (keys : list (option ast.node)) :
  flat_map ast.preorder (flat_map ast.optional keys)
  = flat_map (fun k => match k with
                       | Some k => ast.preorder k
                       | None => []
                       end) keys.
Proof.
  induction keys as [|[k|] keys IH]; simpl.
  - reflexivity.
  - now rewrite IH.
  - exact IH.
Qed.

Lemma flat_map_preorder_keywords (keywords : list (option string * ast.node)) :
  flat_map ast.preorder
           (map (fun kw => ast.keyword (fst kw) (snd kw)) keywords)
  = flat_map (fun kw => ast.keyword (fst kw) (snd kw) :: ast.preorder (snd kw))
             keywords.
Proof.
  induction keywords as [|kw keywords IH]; simpl.
  - reflexivity.
  - now rewrite IH.
Qed.

(** A node, then the nodes below each of its children. *)
Lemma preorder_unfold (n : ast.node) :
  ast.preorder n = n :: flat_map ast.preorder (ast.iter_child_nodes n).
Proof.
  destruct n; simpl; try reflexivity.
  - now rewrite flat_map_app, flat_map_preorder_optional.
  - now rewrite app_nil_r.
  - now rewrite flat_map_app, flat_map_preorder_keywords.
  - now rewrite app_nil_r.
Qed.

(** With fuel for every node below the queue, the walk yields exactly the
    nodes below the queue. *)
Lemma walk_queue_preorder (fuel : nat) :
  forall todo,
    (Datatypes.length (flat_map ast.preorder todo) <= fuel)%nat ->
    Permutation (ast.walk_queue fuel todo) (flat_map ast.preorder todo).
Proof.
  induction fuel as [|fuel IH]; intros [|n todo] Hfuel; simpl; auto.
  - simpl in Hfuel. rewrite preorder_unfold in Hfuel. simpl in Hfuel. lia.
  - rewrite preorder_unfold at 1. simpl. constructor.
    rewrite IH.
    + rewrite flat_map_app. apply Permutation_app_comm.
    + rewrite flat_map_app, length_app.
      simpl in Hfuel. rewrite preorder_unfold in Hfuel. simpl in Hfuel.
      rewrite length_app in Hfuel. lia.
Qed.

Lemma walk_preorder (tree : ast.node) :
  Permutation (ast.walk tree) (ast.preorder tree).
Proof.
  unfold ast.walk.
  rewrite walk_queue_preorder; simpl; rewrite app_nil_r; auto.
Qed.

Lemma in_walk (tree n : ast.node) :
  In n (ast.walk tree) <-> In n (ast.preorder tree).
Proof.
  split; apply Permutation_in;
    [|symmetry]; apply walk_preorder.
Qed.


(** ** Dictionaries whose keys are strings or [None] *)

Lemma py_eqb_str_or_none (a b : pyobj) :
  str_or_none a = true -> (py_eqb a b = true <-> a = b).
Proof.
  destruct a; try discriminate; intros _; destruct b; simpl;
    try (split; [discriminate|congruence]); try tauto.
  rewrite String.eqb_eq. split; congruence.
Qed.

Lemma py_eqb_refl_str_or_none (a : pyobj) :
  str_or_none a = true -> py_eqb a a = true.
Proof. intros H. now apply py_eqb_str_or_none. Qed.

Lemma dict_find_store_same (d : list (pyobj * pyobj)) (k v : pyobj) :
  str_keys d ->
  str_or_none k = true ->
  dict_find (dict_store d k v) k = Some v.
Proof.
  unfold str_keys. intros Hd Hk. induction Hd as [|[k' v'] d Hk' Hd IH]; simpl.
  - now rewrite py_eqb_refl_str_or_none.
  - destruct (py_eqb k' k) eqn:E; simpl; rewrite E; auto.
Qed.

Lemma dict_find_store_other (d : list (pyobj * pyobj)) (k k' v : pyobj) :
  str_keys d ->
  str_or_none k = true -> k <> k' ->
  dict_find (dict_store d k v) k' = dict_find d k'.
Proof.
  unfold str_keys. intros Hd Hk Hne. induction Hd as [|[k0 v0] d Hk0 Hd IH]; simpl.
  - destruct (py_eqb k k') eqn:E; auto.
    apply py_eqb_str_or_none in E; tauto.
  - destruct (py_eqb k0 k) eqn:E; simpl.
    + apply py_eqb_str_or_none in E; auto. simpl in E. subst k0.
      destruct (py_eqb k k') eqn:E'; auto.
      apply py_eqb_str_or_none in E'; tauto.
    + now rewrite IH.
Qed.

Lemma dict_store_str_or_none (d : list (pyobj * pyobj)) (k v : pyobj) :
  str_keys d ->
  str_or_none k = true ->
  str_keys (dict_store d k v).
Proof.
  unfold str_keys. intros Hd Hk. induction Hd as [|[k' v'] d Hk' Hd IH]; simpl.
  - auto.
  - destruct (py_eqb k' k); constructor; auto.
Qed.

(** The keys after a store: the same when the key was there, one more at
    the end when it was not. *)
Lemma dict_store_keys (d : list (pyobj * pyobj)) (k v : pyobj) :
  str_keys d ->
  (In k (map fst d) /\ map fst (dict_store d k v) = map fst d)
  \/ (~ In k (map fst d)
      /\ dict_store d k v = (d ++ [(k, v)])%list).
Proof.
  unfold str_keys. intros Hd. induction Hd as [|[k' v'] d Hk' Hd IH]; simpl.
  - right. tauto.
  - destruct (py_eqb k' k) eqn:E.
    + apply py_eqb_str_or_none in E; [|exact Hk']. simpl in E. subst k'.
      left. split; [now left|reflexivity].
    + assert (k' <> k).
      { intros ->. rewrite py_eqb_refl_str_or_none in E; auto. discriminate. }
      destruct IH as [[Hin Heq]|[Hout Heq]].
      * left. simpl. rewrite Heq. tauto.
      * right. rewrite Heq. tauto.
Qed.

(** ** Properties of the script *)

Section Properties.

Variable py_str : pyobj -> string.

#[local] Abbreviation extract_value := (extract_value py_str).
#[local] Abbreviation extract_calls_body := (extract_calls_body py_str).
#[local] Abbreviation extract_calls := (extract_calls py_str).

(** *** The value normalizer *)

Lemma extract_value_type_value (n : ast.node) (r : pyobj) :
  extract_value n = Ok r -> exists t v, r = type_value t v.
Proof.
  destruct n; simpl; intros H; try (injection H as <-; eauto).
  - destruct (list_comprehension _); simpl in H; [|discriminate].
    injection H as <-; eauto.
  - destruct (dict_comprehension _ _); simpl in H; [|discriminate].
    injection H as <-; eauto.
Qed.

Lemma scalar_key_hashable (k : ast.node) (t : string) (v : pyobj) :
  scalar_key (Some k) = true ->
  extract_value k = Ok (type_value t v) -> hashable v = true.
Proof.
  destruct k; simpl; intros Hk H; try discriminate;
    injection H as _ <-; auto.
Qed.

Lemma list_comprehension_ok (elts : list ast.node) :
  Forall (fun n => keys_hashable n = true ->
                   exists r, extract_value n = Ok r) elts ->
  forallb keys_hashable elts = true ->
  exists vs, list_comprehension (map extract_value elts) = Ok vs.
Proof.
  induction 1 as [|n elts Hn _ IH]; simpl; intros Hall.
  - eauto.
  - apply andb_prop in Hall as [Hh Hall].
    destruct (Hn Hh) as [r ->]. destruct (IH Hall) as [vs ->].
    simpl. eauto.
Qed.

Lemma dict_comprehension_ok (keys : list (option ast.node)) :
  forall (values : list ast.node) (items : list (pyobj * pyobj)),
    forallb scalar_key keys = true ->
    Forall (fun n => keys_hashable n = true ->
                     exists r, extract_value n = Ok r) values ->
    forallb keys_hashable values = true ->
    exists items',
      dict_comprehension
        (combine (map (fun k => match k with
                                | Some k => extract_value k
                                | None => Ok (type_value "unknown" PyNone)
                                end) keys)
                 (map extract_value values))
        (PyDict items)
      = Ok (PyDict items').
Proof.
  induction keys as [|k keys IH]; intros values items Hkeys Hvalues Hall.
  - simpl. eauto.
  - destruct Hvalues as [|v values Hv Hvalues]; [simpl; eauto|].
    simpl in Hkeys, Hall.
    apply andb_prop in Hkeys as [Hk Hkeys].
    apply andb_prop in Hall as [Hh Hall].
    destruct (Hv Hh) as [rv Ev].
    assert (exists t p,
               match k with
               | Some k => extract_value k
               | None => Ok (type_value "unknown" PyNone)
               end = Ok (type_value t p) /\ hashable p = true)
      as (t & p & Ek & Hp).
    { destruct k as [k|].
      - assert (exists r, extract_value k = Ok r) as [r Er]
            by (destruct k; simpl in *; try discriminate; eauto).
        destruct (extract_value_type_value _ _ Er) as (t & p & ->).
        exists t, p. split; auto. eapply scalar_key_hashable; eauto.
      - exists "unknown", PyNone. auto. }
    cbn [map combine dict_comprehension]. rewrite Ek, Ev.
    cbn -[dict_comprehension]. rewrite Hp. cbn -[dict_comprehension].
    apply IH; auto.
Qed.

Lemma extract_value_ok (n : ast.node) :
  keys_hashable n = true -> exists r, extract_value n = Ok r.
Proof.
  induction n as [ | | | | | | | | elts IH | ks vs IHk IHv | | | | ]
    using node_induction; intros Hn;
    try (simpl; eauto; fail).
  - destruct (list_comprehension_ok elts) as [vs' E]; auto.
    simpl. rewrite E. simpl. eauto.
  - simpl in Hn. apply andb_prop in Hn as [Hk Hv].
    destruct (dict_comprehension_ok ks vs [] Hk) as [items E]; auto.
    simpl. rewrite E. simpl. eauto.
Qed.

Lemma extract_value_unrecognized (n : ast.node) :
  recognized n = false -> extract_value n = Ok (type_value "unknown" PyNone).
Proof. destruct n; simpl; auto; discriminate. Qed.

(** A fault of the normalizer is the [TypeError] of an unhashable key. *)
Lemma dict_comprehension_raise (entries : list (M pyobj * M pyobj)) :
  forall (d : pyobj) (e : exn),
    Forall (fun kv =>
              (forall r, fst kv = Ok r -> exists t v, r = type_value t v)
              /\ (forall e, fst kv = Raise e -> exists msg, e = TypeError msg)
              /\ (forall e, snd kv = Raise e -> exists msg, e = TypeError msg))
           entries ->
    (exists items, d = PyDict items) ->
    dict_comprehension entries d = Raise e -> exists msg, e = TypeError msg.
Proof.
  induction entries as [|[k v] entries IH]; intros d e Hall [items ->] H.
  - discriminate.
  - inversion Hall as [|? ? (Hk & Hke & Hve) Hrest]; subst. simpl in *.
    destruct k as [kv|ek]; simpl in H; [|injection H as <-; eauto].
    destruct (Hk kv eq_refl) as (t & p & ->).
    cbn -[dict_comprehension] in H.
    destruct v as [vv|ev]; simpl in H; [|injection H as <-; eauto].
    destruct (hashable p); simpl in H.
    + eapply IH; eauto.
    + injection H as <-. unfold TypeError. eauto.
Qed.

Lemma list_comprehension_raise (results : list (M pyobj)) (e : exn) :
  Forall (fun r => forall e, r = Raise e -> exists msg, e = TypeError msg)
         results ->
  list_comprehension results = Raise e -> exists msg, e = TypeError msg.
Proof.
  induction 1 as [|r results Hr _ IH]; simpl; intros H.
  - discriminate.
  - destruct r as [v|er]; simpl in H; [|injection H as <-; eauto].
    destruct (list_comprehension results); simpl in H; [discriminate|].
    injection H as <-. auto.
Qed.

Lemma extract_value_raise (n : ast.node) (e : exn) :
  extract_value n = Raise e -> exists msg, e = TypeError msg.
Proof.
  revert e.
  induction n as [ | | | | | | | | elts IH | ks vs IHk IHv | | | | ]
    using node_induction; intros e Hraise; try discriminate.
  - simpl in Hraise.
    destruct (list_comprehension _) eqn:E; simpl in Hraise; [discriminate|].
    injection Hraise as <-. eapply list_comprehension_raise; [|exact E].
    clear E. induction IH; simpl; constructor; auto.
  - simpl in Hraise.
    destruct (dict_comprehension _ _) eqn:E; simpl in Hraise; [discriminate|].
    injection Hraise as <-. eapply dict_comprehension_raise; [|eauto|exact E].
    clear E. revert vs IHv.
    induction IHk as [|k ks Hk _ IHks]; intros vs IHv; simpl.
    + constructor.
    + destruct IHv as [|v vs Hv IHv]; simpl; constructor; auto.
      simpl. repeat split; auto.
      * intros r Er. destruct k as [k|].
        -- eapply extract_value_type_value; eauto.
        -- injection Er as <-. unfold type_value. eauto.
      * intros e' Ee. destruct k as [k|]; [auto|discriminate].
Qed.

(** *** The record of one call *)

Lemma positional_loop (lineno col_offset : Z) (function module : pyobj)
    (args : list ast.node) :
  forall (i : nat) (a : list (pyobj * pyobj)),
    for_each (fun call_info '(i, arg) =>
                v <- extract_value arg ;;
                setitem_arguments call_info (PyStr (arg_key i)) v)
             (enumerate i args)
             (PyDict (call_info_fields lineno col_offset function module a))
    = a' <- for_each (positional_step py_str) (enumerate i args) a ;;
      Ok (PyDict (call_info_fields lineno col_offset function module a')).
Proof.
  induction args as [|arg args IH]; intros i a; simpl.
  - reflexivity.
  - unfold positional_step at 1. simpl.
    destruct (extract_value arg) as [v|e]; simpl; [|reflexivity].
    apply IH.
Qed.

Lemma keyword_loop (lineno col_offset : Z) (function module : pyobj)
    (keywords : list (option string * ast.node)) :
  forall a : list (pyobj * pyobj),
    for_each (fun call_info '(arg, value) =>
                v <- extract_value value ;;
                setitem_arguments call_info (optional_str arg) v)
             keywords
             (PyDict (call_info_fields lineno col_offset function module a))
    = a' <- for_each (keyword_step py_str) keywords a ;;
      Ok (PyDict (call_info_fields lineno col_offset function module a')).
Proof.
  induction keywords as [|[arg value] keywords IH]; intros a; simpl.
  - reflexivity.
  - unfold keyword_step at 1. simpl.
    destruct (extract_value value) as [v|e]; simpl; [|reflexivity].
    destruct arg as [arg|]; simpl; apply IH.
Qed.

Lemma arguments_loops (source_lines : list string) (calls : list pyobj)
    (lineno col_offset : Z) (function module : pyobj)
    (args : list ast.node) (keywords : list (option string * ast.node)) :
  (call_info <-
     for_each (fun call_info '(i, arg) =>
                 v <- extract_value arg ;;
                 setitem_arguments call_info (PyStr (arg_key i)) v)
              (enumerate 0 args)
              (PyDict (call_info_fields lineno col_offset function module
                                        [])) ;;
   call_info <-
     for_each (fun call_info '(arg, value) =>
                 v <- extract_value value ;;
                 setitem_arguments call_info (optional_str arg) v)
              keywords call_info ;;
   call_info <-
     (if (0 <=? lineno - 1)
         && (lineno - 1 <? Z.of_nat (Datatypes.length source_lines))
      then setitem call_info (PyStr "source_code")
             (PyStr (strip (nth (Z.to_nat (lineno - 1)) source_lines "")))
      else Ok call_info) ;;
   Ok (calls ++ [call_info])%list)
  = a <- for_each (positional_step py_str) (enumerate 0 args) [] ;;
    a <- for_each (keyword_step py_str) keywords a ;;
    Ok (calls ++ [PyDict (call_info_fields lineno col_offset function module a
                          ++ source_code_field lineno source_lines)])%list.
Proof.
  rewrite positional_loop.
  destruct (for_each (positional_step py_str) _ _) as [a|e];
    cbn [bind]; [|reflexivity].
  rewrite keyword_loop.
  destruct (for_each (keyword_step py_str) _ _) as [a'|e];
    cbn [bind]; [|reflexivity].
  unfold source_code_field.
  destruct ((0 <=? lineno - 1) && _); reflexivity.
Qed.

(** The loop body on a call: the arguments are collected, then the record
    is appended. *)
Lemma extract_calls_body_call (source_lines : list string)
    (calls : list pyobj) (lineno col_offset : Z) (func : ast.node)
    (args : list ast.node) (keywords : list (option string * ast.node)) :
  extract_calls_body source_lines calls
                     (ast.Call lineno col_offset func args keywords)
  = a <- for_each (positional_step py_str) (enumerate 0 args) [] ;;
    a <- for_each (keyword_step py_str) keywords a ;;
    Ok (calls ++ [PyDict (call_info_fields lineno col_offset
                            (callee_function func) (callee_module func) a
                          ++ source_code_field lineno source_lines)])%list.
Proof.
  unfold extract_calls_body.
  destruct func as [ | | | | | | | id | | | value attr | | | ];
    try exact (arguments_loops source_lines calls lineno col_offset
                               PyNone PyNone args keywords).
  - exact (arguments_loops source_lines calls lineno col_offset
                           (PyStr id) PyNone args keywords).
  - unfold callee_module, callee_function.
    destruct (attribute_path value []) as [parts current].
    destruct current as [ | | | | | | | id | | | | | | ];
      try exact (arguments_loops source_lines calls lineno col_offset
                                 (PyStr attr) PyNone args keywords).
    exact (arguments_loops source_lines calls lineno col_offset
                           (PyStr attr)
                           (PyStr (String.concat "." (id :: parts)))
                           args keywords).
Qed.

(** *** The arguments of one call *)

Lemma for_each_app {A S : Type} (body : S -> A -> M S) (l1 l2 : list A) :
  forall s : S,
    for_each body (l1 ++ l2) s = s' <- for_each body l1 s ;; for_each body l2 s'.
Proof.
  induction l1 as [|x l1 IH]; intros s; simpl.
  - reflexivity.
  - destruct (body s x); simpl; auto.
Qed.

Lemma arg_key_inj (i j : nat) : arg_key i = arg_key j -> i = j.
Proof.
  unfold arg_key. simpl. intros H. injection H as H.
  apply Unsigned.to_uint_inj.
  assert (Some (Nat.to_uint i) = Some (Nat.to_uint j)) as E
      by (rewrite <- !NilEmpty.usu; now rewrite H).
  now injection E.
Qed.

Lemma optional_str_inj (a b : option string) :
  optional_str a = optional_str b -> a = b.
Proof. destruct a, b; simpl; congruence. Qed.

Lemma optional_str_str_or_none (a : option string) :
  str_or_none (optional_str a) = true.
Proof. now destruct a. Qed.

Lemma str_keys_app (d d' : list (pyobj * pyobj)) :
  str_keys d -> str_keys d' -> str_keys (d ++ d').
Proof. unfold str_keys. intros. apply Forall_app. auto. Qed.

Lemma positional_entries_keys (i : nat) (vs : list pyobj) :
  map fst (positional_entries i vs)
  = map (fun j => PyStr (arg_key j)) (seq i (Datatypes.length vs)).
Proof.
  revert i. induction vs as [|v vs IH]; intros i; simpl.
  - reflexivity.
  - f_equal. apply IH.
Qed.

Lemma positional_entries_str_keys (i : nat) (vs : list pyobj) :
  str_keys (positional_entries i vs).
Proof.
  revert i. induction vs as [|v vs IH]; intros i; constructor; auto.
  apply IH.
Qed.

(** The positional loop appends one entry per argument when the keys
    [arg_j], [j >= i], are not in the dictionary yet. *)
Lemma positional_result (args : list ast.node) :
  forall (i : nat) (a a' : list (pyobj * pyobj)),
    for_each (positional_step py_str) (enumerate i args) a = Ok a' ->
    str_keys a ->
    (forall j, (i <= j)%nat -> ~ In (PyStr (arg_key j)) (map fst a)) ->
    exists vs,
      Forall2 (fun arg v => extract_value arg = Ok v) args vs
      /\ a' = (a ++ positional_entries i vs)%list.
Proof.
  induction args as [|arg args IH]; intros i a a' H Ha Hfresh; simpl in H.
  - injection H as <-. exists []. rewrite app_nil_r. auto.
  - unfold positional_step at 1 in H. simpl in H.
    destruct (extract_value arg) as [v|e] eqn:Ev; simpl in H; [|discriminate].
    destruct (dict_store_keys a (PyStr (arg_key i)) v Ha) as [[Hin _]|[_ E]].
    { exfalso. eapply Hfresh; eauto. }
    rewrite E in H. apply IH in H as (vs & Hvs & ->).
    + exists (v :: vs). split; [constructor; auto|].
      now rewrite <- app_assoc.
    + apply str_keys_app; auto. constructor; auto.
    + intros j Hj. rewrite map_app, in_app_iff. simpl.
      intros [Hin|[Heq|[]]].
      * eapply Hfresh; [|exact Hin]. lia.
      * assert (arg_key i = arg_key j) as Heq' by congruence.
        apply arg_key_inj in Heq'. lia.
Qed.

(** The keyword loop keeps the keys that are there in place, adds the new
    names behind them, and never makes a key occur twice. *)
Lemma keyword_result (keywords : list (option string * ast.node)) :
  forall a a' : list (pyobj * pyobj),
    for_each (keyword_step py_str) keywords a = Ok a' ->
    str_keys a ->
    str_keys a'
    /\ (exists extra, map fst a' = (map fst a ++ extra)%list)
    /\ (forall k, In k (map fst a')
                  <-> In k (map fst a)
                      \/ In k (map optional_str (map fst keywords)))
    /\ (NoDup (map fst a) -> NoDup (map fst a')).
Proof.
  induction keywords as [|[name value] keywords IH]; intros a a' H Ha;
    simpl in H.
  - injection H as <-. repeat split; auto.
    + exists []. now rewrite app_nil_r.
    + simpl. tauto.
  - unfold keyword_step at 1 in H. simpl in H.
    destruct (extract_value value) as [v|e]; simpl in H; [|discriminate].
    pose proof (optional_str_str_or_none name) as Hname.
    apply IH in H as (Hs & [extra Hextra] & Hin & Hnodup);
      [|now apply dict_store_str_or_none].
    destruct (dict_store_keys a (optional_str name) v Ha)
      as [[Hold E]|[Hnew E]].
    + rewrite E in *. repeat split; eauto.
      * intros Hk. apply Hin in Hk. simpl. tauto.
      * intros [Hk|[<-|Hk]]; apply Hin; auto.
    + rewrite E, map_app in *. simpl in *. repeat split.
      * exact Hs.
      * exists (optional_str name :: extra). now rewrite Hextra, <- app_assoc.
      * intros Hk. apply Hin in Hk. rewrite in_app_iff in Hk. simpl in Hk.
        tauto.
      * intros Hk. apply Hin. rewrite in_app_iff. simpl. tauto.
      * intros Hnd. apply Hnodup. apply NoDup_app; auto.
        -- constructor; [intros []|constructor].
        -- intros k Hk [<-|[]]. auto.
Qed.

(** A key that is no keyword name keeps its value through the keyword
    loop. *)
Lemma keyword_find_other (keywords : list (option string * ast.node))
    (k : pyobj) :
  forall a a' : list (pyobj * pyobj),
    for_each (keyword_step py_str) keywords a = Ok a' ->
    str_keys a ->
    ~ In k (map optional_str (map fst keywords)) ->
    dict_find a' k = dict_find a k.
Proof.
  induction keywords as [|[name value] keywords IH]; intros a a' H Ha Hk;
    simpl in H.
  - now injection H as <-.
  - unfold keyword_step at 1 in H. simpl in H, Hk.
    destruct (extract_value value) as [v|e]; simpl in H; [|discriminate].
    apply IH in H.
    + rewrite H. apply dict_find_store_other; auto.
      apply optional_str_str_or_none.
    + apply dict_store_str_or_none; auto. apply optional_str_str_or_none.
    + tauto.
Qed.

(** The last keyword argument of a name gives the name's entry. *)
Lemma keyword_find_last (before after : list (option string * ast.node))
    (name : option string) (value : ast.node) (a a' : list (pyobj * pyobj)) :
  for_each (keyword_step py_str) (before ++ (name, value) :: after) a = Ok a' ->
  str_keys a ->
  Forall (fun kw => fst kw <> name) after ->
  exists v, extract_value value = Ok v
            /\ dict_find a' (optional_str name) = Some v.
Proof.
  intros H Ha Hafter. rewrite for_each_app in H.
  destruct (for_each _ before a) as [a1|e] eqn:E1; simpl in H; [|discriminate].
  apply keyword_result in E1 as (Ha1 & _); auto.
  unfold keyword_step at 1 in H. simpl in H.
  destruct (extract_value value) as [v|e]; simpl in H; [|discriminate].
  exists v. split; auto.
  pose proof (optional_str_str_or_none name) as Hname.
  apply keyword_find_other with (k := optional_str name) in H.
  - rewrite H. now apply dict_find_store_same.
  - now apply dict_store_str_or_none.
  - rewrite in_map_iff. intros (n & En & Hn). apply optional_str_inj in En.
    subst n. apply in_map_iff in Hn as (kw & Ekw & Hkw).
    rewrite Forall_forall in Hafter. now apply (Hafter kw).
Qed.

Lemma positional_entries_find (vs : list pyobj) :
  forall (i j : nat) (v : pyobj),
    nth_error vs j = Some v ->
    dict_find (positional_entries i vs) (PyStr (arg_key (i + j))) = Some v.
Proof.
  induction vs as [|v0 vs IH]; intros i j v Hj.
  - now destruct j.
  - unfold positional_entries.
    cbn [enumerate map dict_find fst snd py_eqb].
    destruct j as [|j]; cbn [nth_error] in Hj.
    + injection Hj as ->. now rewrite Nat.add_0_r, String.eqb_refl.
    + destruct (String.eqb (arg_key i) (arg_key (i + S j))) eqn:E.
      * apply String.eqb_eq, arg_key_inj in E. lia.
      * replace (i + S j)%nat with (S i + j)%nat by lia.
        apply (IH (S i) j v Hj).
Qed.

Lemma positional_ok (args : list ast.node) :
  Forall (fun arg => exists v, extract_value arg = Ok v) args ->
  forall (i : nat) (a : list (pyobj * pyobj)),
    exists a', for_each (positional_step py_str) (enumerate i args) a = Ok a'.
Proof.
  induction 1 as [|arg args [v Ev] _ IH]; intros i a; simpl.
  - eauto.
  - unfold positional_step at 1. simpl. rewrite Ev. simpl. apply IH.
Qed.

Lemma keyword_ok (keywords : list (option string * ast.node)) :
  Forall (fun kw => exists v, extract_value (snd kw) = Ok v) keywords ->
  forall a : list (pyobj * pyobj),
    exists a', for_each (keyword_step py_str) keywords a = Ok a'.
Proof.
  induction 1 as [|kw keywords [v Ev] _ IH]; intros a; simpl.
  - eauto.
  - unfold keyword_step at 1. rewrite Ev. simpl. apply IH.
Qed.

Lemma attribute_path_chain (names : list string) :
  forall (root : ast.node) (parts : list string),
    attribute_path (attribute_chain root names) parts
    = attribute_path root (names ++ parts).
Proof.
  unfold attribute_chain.
  induction names as [|n names IH]; intros root parts; simpl.
  - reflexivity.
  - now rewrite IH.
Qed.

Lemma attribute_path_root (root : ast.node) (parts : list string) :
  is_attribute root = false -> attribute_path root parts = (parts, root).
Proof. destruct root; simpl; auto; discriminate. Qed.

(** *** The loops over the tree *)

Lemma extract_calls_body_append (source_lines : list string)
    (calls : list pyobj) (node : ast.node) :
  extract_calls_body source_lines calls node
  = records <- extract_calls_body source_lines [] node ;;
    Ok (calls ++ records)%list.
Proof.
  destruct node; try (simpl; now rewrite app_nil_r).
  rewrite !extract_calls_body_call.
  destruct (for_each _ _ _) as [a|e]; simpl; auto.
  destruct (for_each _ _ _) as [a'|e]; simpl; auto.
Qed.

Lemma extract_calls_body_records (source_lines : list string)
    (node : ast.node) (records : list pyobj) :
  extract_calls_body source_lines [] node = Ok records ->
  if is_call node then exists r, records = [r] else records = [].
Proof.
  destruct node; try (simpl; congruence).
  rewrite extract_calls_body_call. simpl is_call.
  destruct (for_each _ _ _) as [a|e]; simpl; [|discriminate].
  destruct (for_each _ _ _) as [a'|e]; simpl; [|discriminate].
  intros H. injection H as <-. eauto.
Qed.


Lemma extract_calls_ok (source_lines : list string) (nodes : list ast.node) :
  Forall (fun n => call_hashable n = true) nodes ->
  forall calls0, exists calls,
    for_each (extract_calls_body source_lines) nodes calls0 = Ok calls.
Proof.
  induction 1 as [|n nodes Hn _ IH]; intros calls0; simpl.
  - eauto.
  - assert (exists calls1, extract_calls_body source_lines calls0 n = Ok calls1)
      as [calls1 ->].
    { destruct n; try (simpl; eauto; fail).
      rewrite extract_calls_body_call. simpl in Hn.
      apply andb_prop in Hn as [Hargs Hkws].
      rewrite forallb_forall in Hargs, Hkws.
      destruct (positional_ok args) with (i := 0%nat) (a := @nil (pyobj * pyobj))
        as [a ->].
      { apply Forall_forall. intros arg Harg.
        apply extract_value_ok; auto. }
      cbn [bind].
      destruct (keyword_ok keywords) with (a := a) as [a' ->].
      { apply Forall_forall. intros kw Hkw.
        apply extract_value_ok. now apply Hkws. }
      simpl. eauto. }
    simpl. apply IH.
Qed.

Lemma import_loop (lineno : Z) (names : list ast.alias) :
  forall imports : list pyobj,
    fold_left
      (fun (imports : list pyobj) alias =>
         (imports ++ [import_record (ast.name alias) [ast.name alias]
                                    (or_empty (ast.asname alias)) lineno])%list)
      names imports
    = (imports
       ++ map (fun alias =>
                 import_record (ast.name alias) [ast.name alias]
                               (or_empty (ast.asname alias)) lineno)
              names)%list.
Proof.
  induction names as [|alias names IH]; intros imports; simpl.
  - now rewrite app_nil_r.
  - now rewrite IH, <- app_assoc.
Qed.

Lemma extract_imports_body_append (imports : list pyobj) (node : ast.node) :
  extract_imports_body imports node
  = (imports ++ extract_imports_body [] node)%list.
Proof.
  destruct node; try (simpl; now rewrite app_nil_r).
  - simpl. now rewrite !import_loop.
  - reflexivity.
Qed.

Lemma extract_imports_loop (nodes : list ast.node) :
  forall imports : list pyobj,
    fold_left extract_imports_body nodes imports
    = (imports ++ flat_map (extract_imports_body []) nodes)%list.
Proof.
  induction nodes as [|n nodes IH]; intros imports; simpl.
  - now rewrite app_nil_r.
  - now rewrite IH, extract_imports_body_append, <- app_assoc.
Qed.

(** *** The properties the specification states *)

(** C3, as the code has it.  The value normalizer returns a typed value
    [{"type": t, "value": v}] for every node in which no mapping literal
    has a list or mapping literal as a key, and for every node shape it has
    no branch for the typed value is [{"type": "unknown", "value": None}].
    (A list or mapping literal as a key raises [TypeError].) *)
Theorem extract_value_total_on_scalar_keys (n : ast.node) :
  keys_hashable n = true ->
  exists t v,
    extract_value n = Ok (type_value t v)
    /\ (recognized n = false -> t = "unknown" /\ v = PyNone).
Proof.
  intros Hn. destruct (extract_value_ok n Hn) as [r Er].
  destruct (extract_value_type_value n r Er) as (t & v & ->).
  exists t, v. split; auto.
  intros Hrec. rewrite (extract_value_unrecognized n Hrec) in Er.
  injection Er as <- <-. auto.
Qed.


(** C5.  In the record of a call, a callee that is a bare identifier gives
    that identifier as function and no module; a callee [root.n1...nk.c]
    gives [c] as function, and as module the names before [c] joined by
    dots from the root on when the root is an identifier, and no module when
    the root is anything else. *)
Theorem callee_resolution (source_lines : list string)
    (calls calls' : list pyobj) (lineno col_offset : Z) (func : ast.node)
    (args : list ast.node) (keywords : list (option string * ast.node)) :
  extract_calls_body source_lines calls
                     (ast.Call lineno col_offset func args keywords)
  = Ok calls' ->
  exists r,
    calls' = (calls ++ [r])%list
    /\ (forall id,
           func = ast.Name id ->
           getitem r (PyStr "function") = Ok (PyStr id)
           /\ getitem r (PyStr "module") = Ok PyNone)
    /\ (forall root names c,
           func = attribute_chain root (names ++ [c]) ->
           is_attribute root = false ->
           getitem r (PyStr "function") = Ok (PyStr c)
           /\ getitem r (PyStr "module")
              = Ok match root with
                   | ast.Name a => PyStr (String.concat "." (a :: names))
                   | _ => PyNone
                   end).
Proof.
  rewrite extract_calls_body_call.
  destruct (for_each _ _ _) as [a|e]; simpl; [|discriminate].
  destruct (for_each _ _ _) as [a'|e]; simpl; [|discriminate].
  intros H. injection H as <-. eexists. split; [reflexivity|]. split.
  - intros id ->. split; reflexivity.
  - intros root names c -> Hroot.
    unfold attribute_chain. rewrite fold_left_app. simpl fold_left.
    fold (attribute_chain root names). split; [reflexivity|].
    unfold callee_module.
    rewrite attribute_path_chain, app_nil_r, attribute_path_root by auto.
    destruct root; reflexivity.
Qed.

Lemma Forall2_nth_error {A B : Type} (R : A -> B -> Prop)
    (l : list A) (l' : list B) :
  Forall2 R l l' ->
  forall (i : nat) (x : A),
    nth_error l i = Some x ->
    exists y, nth_error l' i = Some y /\ R x y /\ (i < Datatypes.length l)%nat.
Proof.
  induction 1 as [|x0 y0 l l' Hxy _ IH]; intros [|i] x Hi; simpl in *;
    try discriminate.
  - injection Hi as <-. exists y0. repeat split; auto. lia.
  - destruct (IH i x Hi) as (y & Hy & Hr & Hlt). exists y.
    repeat split; auto. lia.
Qed.

Lemma arg_keys_NoDup (i n : nat) :
  NoDup (map (fun j => PyStr (arg_key j)) (seq i n)).
Proof.
  apply NoDup_map_NoDup_ForallPairs; [|apply seq_NoDup].
  intros j j' _ _ E. apply arg_key_inj. congruence.
Qed.

(** C6, as the code has it.  Positional entries are keyed [arg_i] in
    argument order and keyword entries are stored in the same mapping under
    the keyword name, the last keyword of a name giving its entry.  When no
    keyword is named [arg_i] for an index [i] of a positional argument, the
    mapping has one entry per positional argument plus one per distinct
    keyword name, and the entry [arg_i] holds the normalized [i]-th
    argument. *)
Theorem arguments_entries (source_lines : list string)
    (calls calls' : list pyobj) (lineno col_offset : Z) (func : ast.node)
    (args : list ast.node) (keywords : list (option string * ast.node)) :
  extract_calls_body source_lines calls
                     (ast.Call lineno col_offset func args keywords)
  = Ok calls' ->
  (forall i, (i < Datatypes.length args)%nat ->
             ~ In (Some (arg_key i)) (map fst keywords)) ->
  exists r a,
    calls' = (calls ++ [r])%list
    /\ getitem r (PyStr "arguments") = Ok (PyDict a)
    /\ firstn (Datatypes.length args) (map fst a)
       = map (fun i => PyStr (arg_key i)) (seq 0 (Datatypes.length args))
    /\ (forall i arg,
           nth_error args i = Some arg ->
           exists v, extract_value arg = Ok v
                     /\ dict_find a (PyStr (arg_key i)) = Some v)
    /\ (forall before name value after,
           keywords = (before ++ (name, value) :: after)%list ->
           Forall (fun kw => fst kw <> name) after ->
           exists v, extract_value value = Ok v
                     /\ dict_find a (optional_str name) = Some v)
    /\ Datatypes.length a
       = (Datatypes.length args + distinct_keywords keywords)%nat.
Proof.
  rewrite extract_calls_body_call.
  destruct (for_each _ (enumerate _ _) _) as [a1|e] eqn:E1;
    simpl; [|discriminate].
  destruct (for_each _ keywords a1) as [a2|e] eqn:E2; simpl; [|discriminate].
  intros H Hfresh. injection H as <-.
  apply positional_result in E1 as (vs & Hvs & ->);
    [|constructor|intros j _ []].
  simpl in E2. pose proof (Forall2_length Hvs) as Hlen.
  pose proof (positional_entries_str_keys 0 vs) as Hstr.
  pose proof (positional_entries_keys 0 vs) as Hkeys.
  destruct (keyword_result _ _ _ E2 Hstr) as (Hstr2 & [extra Hextra] & Hin & Hnd).
  assert (forall k, In k (map fst (positional_entries 0 vs)) ->
                    ~ In k (map optional_str (map fst keywords))) as Hdisj.
  { intros k Hk Hk'. rewrite Hkeys in Hk.
    apply in_map_iff in Hk as (i & <- & Hi). apply in_seq in Hi.
    apply in_map_iff in Hk' as (name & En & Hname).
    destruct name as [name|]; [|discriminate].
    injection En as ->. apply (Hfresh i); [lia|exact Hname]. }
  exists (PyDict (call_info_fields lineno col_offset (callee_function func)
                    (callee_module func) a2
                  ++ source_code_field lineno source_lines)), a2.
  split; [reflexivity|]. split; [reflexivity|]. repeat split.
  - rewrite Hextra, Hkeys, Hlen.
    rewrite firstn_app, length_map, length_seq, Nat.sub_diag, app_nil_r.
    apply firstn_all2. rewrite length_map, length_seq. lia.
  - intros i arg Hi.
    destruct (Forall2_nth_error _ _ _ Hvs i arg Hi) as (v & Hv & Ev & Hlt).
    exists v. split; auto.
    rewrite (keyword_find_other _ _ _ _ E2 Hstr).
    + apply (positional_entries_find vs 0 i v Hv).
    + apply Hdisj. rewrite Hkeys. apply in_map_iff.
      exists i. split; [reflexivity|apply in_seq; lia].
  - intros before name value after -> Hafter.
    eapply keyword_find_last; eauto.
  - assert (Permutation
              (map fst a2)
              (map fst (positional_entries 0 vs)
               ++ map optional_str
                      (nodup keyword_name_dec (map fst keywords)))) as Hperm.
    { apply NoDup_Permutation.
      - apply Hnd. rewrite Hkeys. apply arg_keys_NoDup.
      - apply NoDup_app.
        + rewrite Hkeys. apply arg_keys_NoDup.
        + apply NoDup_map_NoDup_ForallPairs; [|apply NoDup_nodup].
          intros x y _ _. apply optional_str_inj.
        + intros k Hk Hk'. apply (Hdisj k Hk).
          apply in_map_iff in Hk' as (name & <- & Hname).
          apply in_map, (nodup_In keyword_name_dec), Hname.
      - intros k. rewrite Hin, in_app_iff, !in_map_iff.
        split; (intros [Hk|(name & En & Hname)]; [now left|right]);
          exists name; split; auto; now apply (nodup_In keyword_name_dec). }
    apply Permutation_length in Hperm.
    rewrite length_app, Hkeys, !length_map, length_seq in Hperm.
    unfold distinct_keywords. now rewrite Hlen.
Qed.



(** C9.  A from-import statement of the tree gives exactly one record:
    the loop body appends one record [r] whose fields are, in this order,
    [module] (the statement's module, the empty string when it names none),
    [names] (the imported names in source order), [alias] (the empty
    string) and [lineno] (the statement's line); the extractor's result is
    the records of the nodes of the walk, one after the other, and [r] is
    in it. *)
Theorem import_from_record (tree : ast.node) (lineno : Z)
    (module : option string) (names : list ast.alias) :
  In (ast.ImportFrom lineno module names) (ast.preorder tree) ->
  exists r,
    r = PyDict [(PyStr "module",
                 PyStr match module with Some m => m | None => "" end);
                (PyStr "names",
                 PyList (map (fun alias => PyStr (ast.name alias)) names));
                (PyStr "alias", PyStr "");
                (PyStr "lineno", PyInt lineno)]
    /\ (forall imports,
           extract_imports_body imports (ast.ImportFrom lineno module names)
           = (imports ++ [r])%list)
    /\ keys r = [PyStr "module"; PyStr "names"; PyStr "alias"; PyStr "lineno"]
    /\ getitem r (PyStr "module")
       = Ok (PyStr match module with Some m => m | None => "" end)
    /\ getitem r (PyStr "names")
       = Ok (PyList (map (fun alias => PyStr (ast.name alias)) names))
    /\ getitem r (PyStr "alias") = Ok (PyStr "")
    /\ getitem r (PyStr "lineno") = Ok (PyInt lineno)
    /\ extract_imports tree
       = flat_map (extract_imports_body []) (ast.walk tree)
    /\ In r (extract_imports tree).
Proof.
  intros Hin.
  assert (extract_imports tree
          = flat_map (extract_imports_body []) (ast.walk tree)) as Hwalk
      by (unfold extract_imports; now rewrite extract_imports_loop).
  assert (forall imports,
             extract_imports_body imports (ast.ImportFrom lineno module names)
             = (imports
                ++ [PyDict [(PyStr "module",
                             PyStr match module with
                                   | Some m => m
                                   | None => ""
                                   end);
                            (PyStr "names",
                             PyList (map (fun alias => PyStr (ast.name alias))
                                         names));
                            (PyStr "alias", PyStr "");
                            (PyStr "lineno", PyInt lineno)]])%list) as Hbody.
  { intros imports. simpl. unfold import_record, or_empty.
    now rewrite map_map. }
  eexists. split; [reflexivity|]. split; [exact Hbody|].
  do 5 (split; [reflexivity|]). split; [exact Hwalk|].
  rewrite Hwalk. apply in_flat_map.
  exists (ast.ImportFrom lineno module names). split.
  - now apply in_walk.
  - rewrite (Hbody []). now left.
Qed.

(** *** The envelope *)

Section Envelope.

Variable ast_parse : string -> M ast.node.

#[local] Abbreviation parse_python_code := (parse_python_code py_str ast_parse).

(** C1, as the code has it.  For a syntactically valid text in which no
    call argument holds a mapping literal with a list or mapping literal as
    a key, the result is the success envelope: the language ["python"], the
    import records and the call records as lists, the text itself as source
    code, success true and the error [None]. *)
Theorem valid_input_success_envelope (source_code : string)
    (tree : ast.node) :
  ast_parse source_code = Ok tree ->
  calls_hashable tree = true ->
  exists calls,
    extract_calls tree (split_lines source_code) = Ok calls
    /\ parse_python_code source_code
       = PyDict [(PyStr "language", PyStr "python");
                 (PyStr "imports", PyList (extract_imports tree));
                 (PyStr "calls", PyList calls);
                 (PyStr "source_code", PyStr source_code);
                 (PyStr "success", PyBool true);
                 (PyStr "error", PyNone)].
Proof.
  intros Hparse Hcalls.
  destruct (extract_calls_ok (split_lines source_code) (ast.walk tree))
    with (calls0 := @nil pyobj) as [calls Ecalls].
  { apply Forall_forall. intros n Hn. apply in_walk in Hn.
    unfold calls_hashable in Hcalls. rewrite forallb_forall in Hcalls. auto. }
  exists calls. split; [exact Ecalls|].
  unfold parse_python_code. rewrite Hparse. cbn [bind].
  unfold extract_calls. now rewrite Ecalls.
Qed.

(** C2.  For a text the parser rejects with a syntax error, the result is
    the failure envelope: success false and an error of type
    ["SyntaxError"] (the syntax fault) with the fault's message, line,
    offset and offending text. *)
Theorem syntax_error_envelope (source_code : string) (str : string)
    (lineno offset text : pyobj) :
  ast_parse source_code = Raise (SyntaxError str lineno offset text) ->
  parse_python_code source_code
  = PyDict [(PyStr "success", PyBool false);
            (PyStr "error",
             PyDict [(PyStr "type", PyStr "SyntaxError");
                     (PyStr "message", PyStr str);
                     (PyStr "lineno", lineno);
                     (PyStr "offset", offset);
                     (PyStr "text", text)])].
Proof.
  intros Hparse. unfold parse_python_code. now rewrite Hparse.
Qed.

(** C7.  A result whose success is false has the two fields success and
    error and nothing else: imports, calls, source code and language are
    not in it. *)
Theorem failure_envelope_fields (source_code : string) :
  getitem (parse_python_code source_code) (PyStr "success")
  = Ok (PyBool false) ->
  keys (parse_python_code source_code) = [PyStr "success"; PyStr "error"]
  /\ has_key (parse_python_code source_code) "imports" = false
  /\ has_key (parse_python_code source_code) "calls" = false
  /\ has_key (parse_python_code source_code) "source_code" = false
  /\ has_key (parse_python_code source_code) "language" = false.
Proof.
  unfold parse_python_code.
  destruct (ast_parse source_code) as [tree|[str lineno offset text|t str]];
    cbn [bind]; auto.
  destruct (extract_calls tree (split_lines source_code))
    as [calls|[str lineno offset text|t str]]; cbn [bind]; auto.
  simpl. discriminate.
Qed.

End Envelope.

End Properties.

(** ** The properties on the example texts *)

Import Examples.

(** The mapping literal with a list as key raises. *)
Lemma list_key_raises :
  extract_value str_of_int list_key_dict
  = Raise (TypeError "unhashable type: 'list'").
Proof. reflexivity. Qed.

(** The syntactically valid text [f({[1]: 2})] gives a failure envelope. *)
Lemma valid_input_failure_envelope :
  sample_parse "f({[1]: 2})" = Ok list_key_tree
  /\ parse_python_code str_of_int sample_parse "f({[1]: 2})"
     = PyDict [(PyStr "success", PyBool false);
               (PyStr "error",
                PyDict [(PyStr "type", PyStr "TypeError");
                        (PyStr "message",
                         PyStr "unhashable type: 'list'")])].
Proof. split; reflexivity. Qed.

(** In [f(1, arg_0=2)] the keyword entry replaces the positional one: one
    entry is left, for one positional argument and one keyword. *)
Lemma keyword_overwrites_positional :
  extract_calls_body str_of_int ["f(1, arg_0=2)"] [] colliding_call
  = Ok [PyDict [(PyStr "lineno", PyInt 1);
                (PyStr "col_offset", PyInt 0);
                (PyStr "function", PyStr "f");
                (PyStr "module", PyNone);
                (PyStr "arguments",
                 PyDict [(PyStr "arg_0", type_value "number" (PyInt 2))]);
                (PyStr "source_code", PyStr "f(1, arg_0=2)")]]
  /\ Datatypes.length [(PyStr "arg_0", type_value "number" (PyInt 2))]
     <> (1 + distinct_keywords [(Some "arg_0", ast.Constant (PyInt 2))])%nat.
Proof. split; [reflexivity|discriminate]. Qed.

Lemma valid_input_success_envelope_example :
  sample_parse "f(g(1))" = Ok scenario_E_tree
  /\ calls_hashable scenario_E_tree = true
  /\ exists calls,
       extract_calls str_of_int scenario_E_tree (split_lines "f(g(1))")
       = Ok calls
       /\ parse_python_code str_of_int sample_parse "f(g(1))"
          = PyDict [(PyStr "language", PyStr "python");
                    (PyStr "imports", PyList (extract_imports scenario_E_tree));
                    (PyStr "calls", PyList calls);
                    (PyStr "source_code", PyStr "f(g(1))");
                    (PyStr "success", PyBool true);
                    (PyStr "error", PyNone)].
Proof.
  split; [reflexivity|]. split; [reflexivity|].
  apply (valid_input_success_envelope str_of_int sample_parse "f(g(1))"
                                      scenario_E_tree); reflexivity.
Defined.

Lemma syntax_error_envelope_example :
  sample_parse "f("
  = Raise (SyntaxError "'(' was never closed (<unknown>, line 1)"
                       (PyInt 1) (PyInt 2) (PyStr "f("))
  /\ parse_python_code str_of_int sample_parse "f("
     = PyDict [(PyStr "success", PyBool false);
               (PyStr "error",
                PyDict [(PyStr "type", PyStr "SyntaxError");
                        (PyStr "message",
                         PyStr "'(' was never closed (<unknown>, line 1)");
                        (PyStr "lineno", PyInt 1);
                        (PyStr "offset", PyInt 2);
                        (PyStr "text", PyStr "f(")])].
Proof.
  split; [reflexivity|].
  apply (syntax_error_envelope str_of_int sample_parse "f("); reflexivity.
Defined.

Lemma extract_value_scalar_keys_example :
  keys_hashable scalar_key_dict = true
  /\ exists t v,
       extract_value str_of_int scalar_key_dict = Ok (type_value t v)
       /\ (recognized scalar_key_dict = false -> t = "unknown" /\ v = PyNone).
Proof.
  split; [reflexivity|].
  apply (extract_value_total_on_scalar_keys str_of_int scalar_key_dict).
  reflexivity.
Defined.

Lemma callee_resolution_example :
  extract_calls_body str_of_int ["pkg.storage.upload(x)"] [] scenario_C_call
  = Ok [PyDict [(PyStr "lineno", PyInt 1);
                (PyStr "col_offset", PyInt 0);
                (PyStr "function", PyStr "upload");
                (PyStr "module", PyStr "pkg.storage");
                (PyStr "arguments",
                 PyDict [(PyStr "arg_0", type_value "variable" (PyStr "x"))]);
                (PyStr "source_code", PyStr "pkg.storage.upload(x)")]]
  /\ exists r,
       getitem r (PyStr "function") = Ok (PyStr "upload")
       /\ getitem r (PyStr "module") = Ok (PyStr "pkg.storage").
Proof.
  split; [reflexivity|].
  destruct (callee_resolution str_of_int ["pkg.storage.upload(x)"] [] _
              1 0 (ast.Attribute (ast.Attribute (ast.Name "pkg") "storage")
                                 "upload")
              [ast.Name "x"] [] eq_refl)
    as (r & _ & _ & Hchain).
  exists r. apply (Hchain (ast.Name "pkg") ["storage"] "upload"); reflexivity.
Defined.

Lemma arguments_entries_example :
  (forall i, (i < 1)%nat ->
             ~ In (Some (arg_key i)) [Some "bucket"; Some "source"])
  /\ exists r a,
       extract_calls_body str_of_int
         ["upload(x, bucket='b', source='/tmp/x')"] [] upload_call
       = Ok [r]
       /\ getitem r (PyStr "arguments") = Ok (PyDict a)
       /\ Datatypes.length a = 3%nat.
Proof.
  assert (forall i, (i < 1)%nat ->
                    ~ In (Some (arg_key i)) [Some "bucket"; Some "source"])
    as Hfresh.
  { intros [|i] Hi; [|lia]. intros [E|[E|[]]]; discriminate. }
  split; [exact Hfresh|].
  destruct (arguments_entries str_of_int
              ["upload(x, bucket='b', source='/tmp/x')"] [] _ 1 0
              (ast.Name "upload") [ast.Name "x"]
              [(Some "bucket", ast.Constant (PyStr "b"));
               (Some "source", ast.Constant (PyStr "/tmp/x"))]
              eq_refl Hfresh)
    as (r & a & Hr & Ha & _ & _ & _ & Hlen).
  exists r, a. split; [|split; [exact Ha|exact Hlen]].
  simpl app in Hr. rewrite <- Hr. reflexivity.
Defined.

Lemma failure_envelope_fields_example :
  getitem (parse_python_code str_of_int sample_parse "f(") (PyStr "success")
  = Ok (PyBool false)
  /\ keys (parse_python_code str_of_int sample_parse "f(")
     = [PyStr "success"; PyStr "error"]
  /\ has_key (parse_python_code str_of_int sample_parse "f(") "imports" = false.
Proof.
  split; [reflexivity|].
  destruct (failure_envelope_fields str_of_int sample_parse "f(" eq_refl)
    as (Hkeys & Himports & _).
  split; assumption.
Defined.


(** Scenario A. *)
Lemma import_from_record_example :
  In (ast.ImportFrom 1 (Some "pkg.storage")
        [{| ast.name := "upload"; ast.asname := None |};
         {| ast.name := "download"; ast.asname := None |}])
     (ast.preorder scenario_A_tree)
  /\ extract_imports scenario_A_tree
     = [PyDict [(PyStr "module", PyStr "pkg.storage");
                (PyStr "names", PyList [PyStr "upload"; PyStr "download"]);
                (PyStr "alias", PyStr "");
                (PyStr "lineno", PyInt 1)]].
Proof.
  assert (In (ast.ImportFrom 1 (Some "pkg.storage")
                [{| ast.name := "upload"; ast.asname := None |};
                 {| ast.name := "download"; ast.asname := None |}])
             (ast.preorder scenario_A_tree)) as Hin
      by (simpl; auto).
  split; [exact Hin|].
  destruct (import_from_record scenario_A_tree 1 (Some "pkg.storage") _ Hin)
    as (r & Hr & Hbody & _ & _ & _ & _ & _ & Hwalk & _).
  rewrite Hwalk. cbn [flat_map ast.walk ast.walk_queue ast.preorder
                      Datatypes.length scenario_A_tree app
                      ast.iter_child_nodes].
  rewrite (Hbody []), Hr. reflexivity.
Defined.


(** ** Further properties of the script *)

Section Coverage.

Variable py_str : pyobj -> string.

#[local] Abbreviation extract_value := (extract_value py_str).
#[local] Abbreviation extract_calls_body := (extract_calls_body py_str).
#[local] Abbreviation extract_calls := (extract_calls py_str).

(** *** The value normalizer *)

Lemma list_comprehension_Forall2 (elts : list ast.node) (vs : list pyobj) :
  list_comprehension (map extract_value elts) = Ok vs
  <-> Forall2 (fun elt v => extract_value elt = Ok v) elts vs.
Proof.
  revert vs. induction elts as [|elt elts IH]; intros vs; simpl.
  - split.
    + intros H. injection H as <-. constructor.
    + intros H. now inversion H.
  - split.
    + destruct (extract_value elt) as [v|e] eqn:E; simpl; [|discriminate].
      destruct (list_comprehension _) as [vs'|e] eqn:E'; simpl;
        [|discriminate].
      intros H. injection H as <-. constructor; auto. now apply IH.
    + intros H. inversion H as [|? v ? vs' Hv Hvs]; subst.
      rewrite Hv. simpl. apply IH in Hvs. now rewrite Hvs.
Qed.

Lemma dict_store_well_typed (items : list (pyobj * pyobj)) (k v : pyobj) :
  forallb (fun kv => hashable (fst kv) && well_typed (snd kv)) items = true ->
  hashable k = true -> well_typed v = true ->
  forallb (fun kv => hashable (fst kv) && well_typed (snd kv))
          (dict_store items k v) = true.
Proof.
  intros Hitems Hk Hv.
  induction items as [|[k' v'] items IH]; cbn [dict_store forallb fst snd].
  - now rewrite Hk, Hv.
  - cbn [forallb fst snd] in Hitems.
    apply andb_prop in Hitems as [Hkv Hitems].
    apply andb_prop in Hkv as [Hk' Hv'].
    destruct (py_eqb k' k); cbn [forallb fst snd].
    + now rewrite Hk', Hv, Hitems.
    + now rewrite Hk', Hv', IH.
Qed.

Lemma dict_comprehension_well_typed (entries : list (M pyobj * M pyobj)) :
  forall (items : list (pyobj * pyobj)) (d : pyobj),
    Forall (fun kv => forall r, snd kv = Ok r -> well_typed r = true)
           entries ->
    forallb (fun kv => hashable (fst kv) && well_typed (snd kv)) items = true ->
    dict_comprehension entries (PyDict items) = Ok d ->
    exists items',
      d = PyDict items'
      /\ forallb (fun kv => hashable (fst kv) && well_typed (snd kv)) items'
         = true.
Proof.
  induction entries as [|[k v] entries IH]; intros items d Hall Hitems H.
  - injection H as <-. eauto.
  - inversion Hall as [|? ? Hv Hrest]; subst. simpl in Hv.
    cbn [dict_comprehension] in H.
    destruct k as [kv|e]; cbn [bind] in H; [|discriminate].
    destruct (getitem kv (PyStr "value")) as [key|e]; cbn [bind] in H;
      [|discriminate].
    destruct v as [vv|e]; cbn [bind] in H; [|discriminate].
    unfold setitem in H. destruct (hashable key) eqn:Hkey; cbn [bind] in H;
      [|discriminate].
    eapply IH; [exact Hrest| |exact H].
    apply dict_store_well_typed; auto.
Qed.

Lemma well_typed_constant (value : pyobj) :
  well_typed (type_value (get_value_type value) value) = true.
Proof. destruct value; reflexivity. Qed.

(** X2.  Whatever the normalizer returns is a typed value: the fields
    [type] and [value], the type one of the eight kinds, the value of the
    shape of its kind, down through the elements of lists and the values of
    dictionaries. *)
Theorem extract_value_well_typed (n : ast.node) (r : pyobj) :
  extract_value n = Ok r -> well_typed r = true.
Proof.
  revert r.
  induction n as [ | | | | | | | | elts IH | ks vs IHk IHv | | | | ]
    using node_induction; intros r Hr; simpl in Hr;
    try (injection Hr as <-; reflexivity).
  - injection Hr as <-. apply well_typed_constant.
  - injection Hr as <-. apply well_typed_constant.
  - destruct (list_comprehension _) as [values|e] eqn:E; simpl in Hr;
      [|discriminate].
    injection Hr as <-. apply list_comprehension_Forall2 in E.
    change (forallb well_typed values = true).
    apply forallb_forall. intros v Hv.
    clear - IH E Hv. induction E as [|elt v' elts values Ev _ IHE].
    + destruct Hv.
    + inversion IH; subst. destruct Hv as [<-|Hv]; auto.
  - destruct (dict_comprehension _ _) as [d|e] eqn:E; simpl in Hr;
      [|discriminate].
    injection Hr as <-.
    apply dict_comprehension_well_typed with (items := []) in E as (items & -> & Hitems);
      [exact Hitems| |reflexivity].
    clear - IHv. revert ks.
    induction IHv as [|v vs Hv _ IHvs]; intros [|k ks]; simpl; constructor;
      auto.
Qed.



Lemma dict_comprehension_dict (entries : list (M pyobj * M pyobj)) :
  forall (items : list (pyobj * pyobj)) (d : pyobj),
    dict_comprehension entries (PyDict items) = Ok d ->
    exists items', d = PyDict items'.
Proof.
  induction entries as [|[k v] entries IH]; intros items d H.
  - injection H as <-. eauto.
  - cbn [dict_comprehension] in H.
    destruct k as [kv|e]; cbn [bind] in H; [|discriminate].
    destruct (getitem kv (PyStr "value")) as [key|e]; cbn [bind] in H;
      [|discriminate].
    destruct v as [vv|e]; cbn [bind] in H; [|discriminate].
    unfold setitem in H. destruct (hashable key); cbn [bind] in H;
      [|discriminate].
    eapply IH; eauto.
Qed.

Lemma nonscalar_key_unhashable (k : ast.node) (t : string) (v : pyobj) :
  scalar_key (Some k) = false ->
  extract_value k = Ok (type_value t v) -> hashable v = false.
Proof.
  destruct k; simpl; intros Hk H; try discriminate.
  - injection H as _ <-. exact Hk.
  - injection H as _ <-. exact Hk.
  - destruct (list_comprehension _); simpl in H; [|discriminate].
    now injection H as _ <-.
  - destruct (dict_comprehension _ _) as [d|e] eqn:E; simpl in H;
      [|discriminate].
    apply dict_comprehension_dict in E as [items ->].
    now injection H as _ <-.
Qed.

Lemma list_comprehension_fault (elts : list ast.node) :
  Forall (fun n => aligned n = true -> keys_hashable n = false ->
                   exists e, extract_value n = Raise e) elts ->
  forallb aligned elts = true ->
  forallb keys_hashable elts = false ->
  exists e, list_comprehension (map extract_value elts) = Raise e.
Proof.
  induction 1 as [|elt elts Helt _ IH]; simpl; intros Ha Hh.
  - discriminate.
  - apply andb_prop in Ha as [Ha Has].
    destruct (extract_value elt) as [v|e] eqn:E; simpl; [|eauto].
    destruct (keys_hashable elt) eqn:Hk.
    + destruct (IH Has Hh) as [e ->]. simpl. eauto.
    + destruct (Helt Ha eq_refl) as [e He]. congruence.
Qed.

Lemma dict_comprehension_fault (keys : list (option ast.node)) :
  forall (values : list ast.node) (items : list (pyobj * pyobj)),
    Datatypes.length keys = Datatypes.length values ->
    Forall (fun n => aligned n = true -> keys_hashable n = false ->
                     exists e, extract_value n = Raise e) values ->
    forallb aligned values = true ->
    forallb scalar_key keys && forallb keys_hashable values = false ->
    exists e,
      dict_comprehension
        (combine (map (fun k => match k with
                                | Some k => extract_value k
                                | None => Ok (type_value "unknown" PyNone)
                                end) keys)
                 (map extract_value values))
        (PyDict items)
      = Raise e.
Proof.
  induction keys as [|k keys IH]; intros [|v values] items Hlen Hvs Ha Hh;
    try discriminate.
  inversion Hvs as [|? ? Hv Hvalues]; subst.
  cbn [forallb] in Ha, Hh. apply andb_prop in Ha as [Hav Ha].
  cbn [map combine dict_comprehension].
  destruct (match k with
            | Some k => extract_value k
            | None => Ok (type_value "unknown" PyNone)
            end) as [kv|e] eqn:Ek; cbn [bind]; [|eauto].
  assert (exists t p, kv = type_value t p) as (t & p & ->).
  { destruct k as [k|].
    - eapply extract_value_type_value; eauto.
    - injection Ek as <-. unfold type_value. eauto. }
  cbn -[dict_comprehension extract_value].
  destruct (extract_value v) as [vv|e] eqn:Ev; cbn [bind]; [|eauto].
  destruct (hashable p) eqn:Hp; cbn [bind]; [|eauto].
  assert (scalar_key k = true) as Hk.
  { destruct k as [k|]; [|reflexivity].
    destruct (scalar_key (Some k)) eqn:Hk; auto.
    rewrite (nonscalar_key_unhashable k t p Hk Ek) in Hp. discriminate. }
  assert (keys_hashable v = true) as Hkv.
  { destruct (keys_hashable v) eqn:Hkv; auto.
    destruct (Hv Hav eq_refl) as [e He]. congruence. }
  apply IH; auto.
  rewrite Hk, Hkv in Hh. simpl in Hh.
  destruct (forallb scalar_key keys); simpl in *; auto.
Qed.

Lemma extract_value_fault (n : ast.node) :
  aligned n = true -> keys_hashable n = false ->
  exists e, extract_value n = Raise e.
Proof.
  induction n as [ | | | | | | | | elts IH | ks vs IHk IHv | | | | ]
    using node_induction; intros Ha Hh; try discriminate.
  - destruct (list_comprehension_fault elts IH Ha Hh) as [e E].
    simpl. rewrite E. simpl. eauto.
  - simpl in Ha. apply andb_prop in Ha as [Hlen Ha].
    apply Nat.eqb_eq in Hlen.
    destruct (dict_comprehension_fault ks vs [] Hlen IHv Ha Hh) as [e E].
    simpl. rewrite E. simpl. eauto.
Qed.

(** X4.  On a tree whose mapping literals have as many keys as values, the
    normalizer faults exactly when a mapping literal it reaches has a list
    or mapping literal (or an unhashable constant) as a key, and the fault
    is a [TypeError]; it has no other fault. *)
Theorem extract_value_fault_iff (n : ast.node) :
  aligned n = true ->
  (keys_hashable n = false
   <-> exists msg, extract_value n = Raise (TypeError msg))
  /\ (forall e, extract_value n = Raise e -> exists msg, e = TypeError msg).
Proof.
  intros Ha. split; [split|].
  - intros Hh. destruct (extract_value_fault n Ha Hh) as [e He].
    destruct (extract_value_raise py_str n e He) as [msg ->]. eauto.
  - intros [msg He]. destruct (keys_hashable n) eqn:Hh; auto.
    destruct (extract_value_ok py_str n Hh) as [r Hr]. congruence.
  - apply extract_value_raise.
Qed.

Lemma distinct_values_snoc (l : list pyobj) (x : pyobj) :
  distinct_values (l ++ [x])
  <-> distinct_values l /\ Forall (fun a => py_eqb a x = false) l.
Proof.
  unfold distinct_values. induction l as [|a l IH]; simpl.
  - split; [intros _; split; constructor|intros _; repeat constructor].
  - split.
    + intros H. inversion H as [|? ? Ha Hl]; subst.
      apply IH in Hl as [Hl Hx]. apply Forall_app in Ha as [Ha Hax].
      inversion Hax; subst. split; constructor; auto.
    + intros [H Hx]. inversion H as [|? ? Ha Hl]; subst.
      inversion Hx; subst. constructor.
      * apply Forall_app. split; auto.
      * apply IH. auto.
Qed.

(** A store either finds an equal key, and the keys stay as they are, or
    finds none and puts the entry at the end. *)
Lemma dict_store_cases (items : list (pyobj * pyobj)) (k v : pyobj) :
  (Exists (fun k' => py_eqb k' k = true) (map fst items)
   /\ map fst (dict_store items k v) = map fst items)
  \/ (Forall (fun k' => py_eqb k' k = false) (map fst items)
      /\ dict_store items k v = (items ++ [(k, v)])%list).
Proof.
  induction items as [|[k' v'] items IH]; simpl.
  - right. split; [constructor|reflexivity].
  - destruct (py_eqb k' k) eqn:E.
    + left. split; [now left|reflexivity].
    + destruct IH as [[Hex Hkeys]|[Hall Happ]].
      * left. split; [now right|]. simpl. now rewrite Hkeys.
      * right. split; [now constructor|]. now rewrite Happ.
Qed.

Lemma merge_invariant_store (seen : list pyobj)
    (items : list (pyobj * pyobj)) (k v : pyobj) :
  distinct_values (map fst items) ->
  merge_invariant seen items ->
  distinct_values (map fst (dict_store items k v))
  /\ merge_invariant (seen ++ [k]) (dict_store items k v).
Proof.
  intros Hd (Hle & Heq & Hdist).
  destruct (dict_store_cases items k v) as [[Hex Hkeys]|[Hall Happ]].
  - split; [now rewrite Hkeys|].
    assert (Datatypes.length (dict_store items k v) = Datatypes.length items)
      as Hlen by (rewrite <- (length_map fst), Hkeys; apply length_map).
    unfold merge_invariant. rewrite Hlen, length_app. simpl.
    split; [lia|]. split; [lia|].
    intros Hseen. apply distinct_values_snoc in Hseen as [Hseen Hk].
    rewrite (Hdist Hseen) in Hex. apply Exists_exists in Hex as (k' & Hin & E).
    rewrite Forall_forall in Hk. rewrite (Hk k' Hin) in E. discriminate.
  - rewrite Happ, map_app. simpl. split.
    + apply distinct_values_snoc. auto.
    + unfold merge_invariant. rewrite !length_app, map_app. simpl.
      split; [lia|]. split.
      * intros Hlen. rewrite Heq by lia. reflexivity.
      * intros Hseen. apply distinct_values_snoc in Hseen as [Hseen _].
        now rewrite (Hdist Hseen).
Qed.

Lemma dict_literal_merge (ks : list (option ast.node)) :
  forall (vs : list ast.node) (items : list (pyobj * pyobj))
         (seen : list pyobj) (d : pyobj),
    dict_comprehension
      (combine (map (extract_key py_str) ks) (map extract_value vs))
      (PyDict items)
    = Ok d ->
    distinct_values (map fst items) ->
    merge_invariant seen items ->
    exists items' ps,
      d = PyDict items'
      /\ Forall2 (fun k p =>
                    exists t, extract_key py_str k = Ok (type_value t p))
                 (map fst (combine ks vs)) ps
      /\ distinct_values (map fst items')
      /\ merge_invariant (seen ++ ps) items'.
Proof.
  induction ks as [|k ks IH]; intros vs items seen d H Hd Hinv.
  - injection H as <-. exists items, []. rewrite app_nil_r.
    repeat split; auto; try apply Hinv; constructor.
  - destruct vs as [|v vs].
    + injection H as <-. exists items, []. rewrite app_nil_r.
      repeat split; auto; try apply Hinv; constructor.
    + cbn [map combine dict_comprehension] in H.
      destruct (extract_key py_str k) as [kv|e] eqn:Ek; cbn [bind] in H;
        [|discriminate].
      assert (exists t p, kv = type_value t p) as (t & p & ->).
      { destruct k as [k|]; simpl in Ek.
        - eapply extract_value_type_value; eauto.
        - injection Ek as <-. unfold type_value. eauto. }
      cbn -[dict_comprehension extract_value] in H.
      destruct (extract_value v) as [vv|e]; cbn [bind] in H; [|discriminate].
      destruct (hashable p); cbn [bind] in H; [|discriminate].
      destruct (merge_invariant_store seen items p vv Hd Hinv) as [Hd1 Hinv1].
      apply IH with (seen := (seen ++ [p])%list) in H
        as (items' & ps & -> & Hps & Hd' & Hinv'); auto.
      exists items', (p :: ps). rewrite <- app_assoc in Hinv'.
      repeat split; auto; try apply Hinv'.
      simpl. constructor; eauto.
Qed.

(** X19.  A mapping literal normalizes to a dictionary in which no key is
    equal, as a Python value, to another ([1], [True] and [1.0] are equal),
    with at most one entry per key-value pair; it has one entry per pair
    exactly when no two keys of the literal normalize to equal values, so
    pairs whose keys are equal share one entry. *)
Theorem mapping_literal_entries (ks : list (option ast.node))
    (vs : list ast.node) (r : pyobj) :
  extract_value (ast.Dict ks vs) = Ok r ->
  exists items ps,
    r = type_value "dict" (PyDict items)
    /\ Forall2 (fun k p =>
                  exists t, extract_key py_str k = Ok (type_value t p))
               (map fst (combine ks vs)) ps
    /\ (Datatypes.length items
        <= Nat.min (Datatypes.length ks) (Datatypes.length vs))%nat
    /\ distinct_values (map fst items)
    /\ (Datatypes.length items
        = Nat.min (Datatypes.length ks) (Datatypes.length vs)
        <-> distinct_values ps).
Proof.
  change (extract_value (ast.Dict ks vs))
    with (value <- dict_comprehension
                     (combine (map (extract_key py_str) ks)
                              (map extract_value vs))
                     (PyDict []) ;;
          Ok (type_value "dict" value)).
  destruct (dict_comprehension _ _) as [d|e] eqn:E; simpl; [|discriminate].
  intros H. injection H as <-.
  apply dict_literal_merge with (seen := []) in E
    as (items & ps & -> & Hps & Hd & Hle & Heq & Hdist).
  - simpl in Hle, Heq, Hdist.
    assert (Datatypes.length ps
            = Nat.min (Datatypes.length ks) (Datatypes.length vs)) as Hlen.
    { apply Forall2_length in Hps.
      now rewrite <- Hps, length_map, length_combine. }
    exists items, ps. rewrite <- Hlen. repeat split; auto.
    + intros Hfull. rewrite <- (Heq Hfull). exact Hd.
    + intros Hps'. rewrite <- (length_map fst items), (Hdist Hps').
      reflexivity.
  - constructor.
  - repeat split; auto.
Qed.

(** *** The order of the walk *)

(** The nodes at the front of the queue are yielded in order, and their
    children queue up behind what is waiting. *)
Lemma walk_queue_level (l : list ast.node) :
  forall (fuel : nat) (waiting : list ast.node),
    (Datatypes.length l <= fuel)%nat ->
    ast.walk_queue fuel (l ++ waiting)
    = (l ++ ast.walk_queue (fuel - Datatypes.length l)
                           (waiting ++ flat_map ast.iter_child_nodes l))%list.
Proof.
  induction l as [|n l IH]; intros fuel waiting Hfuel; simpl.
  - now rewrite Nat.sub_0_r, app_nil_r.
  - destruct fuel as [|fuel]; simpl in *; [lia|].
    rewrite <- app_assoc, IH by lia. now rewrite <- app_assoc.
Qed.

Lemma preorder_length_children (n : ast.node) :
  (Datatypes.length (ast.iter_child_nodes n)
   <= Datatypes.length (flat_map ast.preorder (ast.iter_child_nodes n)))%nat.
Proof.
  induction (ast.iter_child_nodes n) as [|c l IH]; simpl; auto.
  rewrite preorder_unfold. simpl. rewrite length_app. lia.
Qed.

(** The walk of a tree: the root, its children in field order, then the
    nodes below the children. *)
Lemma walk_levels (tree : ast.node) :
  exists deeper,
    ast.walk tree = (tree :: ast.iter_child_nodes tree ++ deeper)%list
    /\ Permutation deeper
         (flat_map ast.preorder
                   (flat_map ast.iter_child_nodes
                             (ast.iter_child_nodes tree))).
Proof.
  unfold ast.walk. rewrite preorder_unfold. cbn [Datatypes.length].
  cbn [ast.walk_queue app].
  pose proof (preorder_length_children tree) as Hlen.
  pose proof (walk_queue_level (ast.iter_child_nodes tree) _ [] Hlen) as Hw.
  rewrite app_nil_r in Hw. rewrite Hw.
  eexists. split; [reflexivity|].
  simpl. apply walk_queue_preorder.
  assert (forall l,
             Datatypes.length (flat_map ast.preorder l)
             = (Datatypes.length l
                + Datatypes.length
                    (flat_map ast.preorder
                              (flat_map ast.iter_child_nodes l)))%nat) as E.
  { induction l as [|c l IH]; simpl; auto.
    rewrite preorder_unfold, flat_map_app. simpl.
    rewrite !length_app, IH. lia. }
  rewrite (E (ast.iter_child_nodes tree)). lia.
Qed.

(** Every child of a yielded node is yielded after it. *)
Lemma walk_queue_children_later (fuel : nat) :
  forall (todo before after : list ast.node) (n : ast.node),
    (Datatypes.length (flat_map ast.preorder todo) <= fuel)%nat ->
    ast.walk_queue fuel todo = (before ++ n :: after)%list ->
    incl (ast.iter_child_nodes n) after.
Proof.
  induction fuel as [|fuel IH]; intros todo before after n Hfuel H.
  - destruct todo, before; discriminate.
  - destruct todo as [|x todo]; [destruct before; discriminate|].
    simpl in H, Hfuel. rewrite preorder_unfold in Hfuel. simpl in Hfuel.
    rewrite length_app in Hfuel.
    assert (Datatypes.length
              (flat_map ast.preorder (todo ++ ast.iter_child_nodes x))
            <= fuel)%nat as Hfuel'
        by (rewrite flat_map_app, length_app; lia).
    destruct before as [|b before]; simpl in H; injection H as -> H.
    + intros c Hc. rewrite <- H.
      eapply Permutation_in;
        [symmetry; apply walk_queue_preorder; exact Hfuel'|].
      apply in_flat_map. exists c. split.
      * apply in_app_iff. now right.
      * rewrite preorder_unfold. now left.
    + eapply IH; eauto.
Qed.

(** *** The import extractor *)

(** X5.  A plain import statement gives one record per imported name, in
    source order.  The record of a name has the fields [module], [names],
    [alias] and [lineno] in this order: the module is the imported name, the
    names are the list of that one name, the alias is the [as] name or the
    empty string, the line is the statement's; each of these records is in
    the extractor's result. *)
Theorem plain_import_records (tree : ast.node) (lineno : Z)
    (names : list ast.alias) :
  In (ast.Import lineno names) (ast.preorder tree) ->
  (forall imports,
      extract_imports_body imports (ast.Import lineno names)
      = (imports
         ++ map (fun alias =>
                   PyDict [(PyStr "module", PyStr (ast.name alias));
                           (PyStr "names", PyList [PyStr (ast.name alias)]);
                           (PyStr "alias",
                            PyStr match ast.asname alias with
                                  | Some a => a
                                  | None => ""
                                  end);
                           (PyStr "lineno", PyInt lineno)])
                names)%list)
  /\ (forall alias,
         In alias names ->
         exists r,
           In r (extract_imports tree)
           /\ keys r = [PyStr "module"; PyStr "names"; PyStr "alias";
                        PyStr "lineno"]
           /\ getitem r (PyStr "module") = Ok (PyStr (ast.name alias))
           /\ getitem r (PyStr "names")
              = Ok (PyList [PyStr (ast.name alias)])
           /\ getitem r (PyStr "alias")
              = Ok (PyStr match ast.asname alias with
                         | Some a => a
                         | None => ""
                         end)
           /\ getitem r (PyStr "lineno") = Ok (PyInt lineno)).
Proof.
  intros Hin.
  assert (forall imports,
             extract_imports_body imports (ast.Import lineno names)
             = (imports
                ++ map (fun alias =>
                          PyDict [(PyStr "module", PyStr (ast.name alias));
                                  (PyStr "names",
                                   PyList [PyStr (ast.name alias)]);
                                  (PyStr "alias",
                                   PyStr match ast.asname alias with
                                         | Some a => a
                                         | None => ""
                                         end);
                                  (PyStr "lineno", PyInt lineno)])
                       names)%list) as Hbody.
  { intros imports. simpl. rewrite import_loop. reflexivity. }
  split; [exact Hbody|].
  intros alias Halias.
  exists (PyDict [(PyStr "module", PyStr (ast.name alias));
                  (PyStr "names", PyList [PyStr (ast.name alias)]);
                  (PyStr "alias",
                   PyStr match ast.asname alias with
                         | Some a => a
                         | None => ""
                         end);
                  (PyStr "lineno", PyInt lineno)]).
  split; [|repeat split].
  unfold extract_imports.
  rewrite extract_imports_loop. simpl. apply in_flat_map.
  exists (ast.Import lineno names). split; [now apply in_walk|].
  rewrite (Hbody []). simpl.
  apply in_map_iff. exists alias. split; [reflexivity|exact Halias].
Qed.

(** X6.  The extractor's result is, up to order, the records of the nodes
    of the tree: every record comes from an import statement of the tree,
    and a tree without import statements gives the empty list. *)
Theorem imports_are_the_trees (tree : ast.node) :
  Permutation (extract_imports tree)
              (flat_map (extract_imports_body []) (ast.preorder tree))
  /\ (forall r,
         In r (extract_imports tree) ->
         exists n, In n (ast.preorder tree) /\ is_import n = true
                   /\ In r (extract_imports_body [] n))
  /\ (forallb (fun n => negb (is_import n)) (ast.preorder tree) = true ->
      extract_imports tree = []).
Proof.
  assert (extract_imports tree
          = flat_map (extract_imports_body []) (ast.walk tree)) as E
      by (unfold extract_imports; now rewrite extract_imports_loop).
  assert (forall r,
             In r (extract_imports tree) ->
             exists n, In n (ast.preorder tree) /\ is_import n = true
                       /\ In r (extract_imports_body [] n)) as Hsound.
  { intros r Hr. rewrite E in Hr. apply in_flat_map in Hr as (n & Hn & Hr).
    exists n. split; [now apply in_walk|]. split; auto.
    destruct n; simpl in Hr; try destruct Hr; reflexivity. }
  split; [|split; auto].
  - rewrite E. apply Permutation_flat_map, walk_preorder.
  - intros Hnone. destruct (extract_imports tree) as [|r rs] eqn:Er; auto.
    destruct (Hsound r (or_introl eq_refl)) as (n & Hn & Himp & _).
    rewrite forallb_forall in Hnone. apply Hnone in Hn.
    rewrite Himp in Hn. discriminate.
Qed.

(** X7.  The records come in the order of the breadth-first walk, not of
    the text: first the records of the root's children in order (for a
    module, its top-level statements), then those of the nodes below them;
    an import inside a function body comes after every top-level import. *)
Theorem imports_top_level_first (body : list ast.node) :
  exists deeper,
    extract_imports (ast.Module body)
    = (flat_map (extract_imports_body []) body ++ deeper)%list
    /\ Permutation deeper
         (flat_map (extract_imports_body [])
                   (flat_map ast.preorder
                             (flat_map ast.iter_child_nodes body))).
Proof.
  destruct (walk_levels (ast.Module body)) as (deeper & Hwalk & Hperm).
  exists (flat_map (extract_imports_body []) deeper). split.
  - unfold extract_imports.
    rewrite extract_imports_loop, Hwalk. simpl. now rewrite flat_map_app.
  - now apply Permutation_flat_map.
Qed.

(** *** The call extractor *)

Lemma line_in_range_spec (lineno : Z) (source_lines : list string) :
  (0 <=? lineno - 1)
  && (lineno - 1 <? Z.of_nat (Datatypes.length source_lines))
  = line_in_range lineno source_lines.
Proof.
  unfold line_in_range.
  destruct (0 <=? lineno - 1) eqn:E1, (1 <=? lineno) eqn:E2;
    destruct (lineno - 1 <? Z.of_nat (Datatypes.length source_lines)) eqn:E3,
             (lineno <=? Z.of_nat (Datatypes.length source_lines)) eqn:E4;
    try reflexivity; lia.
Qed.

(** X8.  The record of a call has the fields [lineno], [col_offset],
    [function], [module] and [arguments] in this order, the first two being
    the position of the call node, and after them the field [source_code]
    exactly when the line number is one of the text's lines; its value is
    then that line without the white space around it.  Out of range the
    field is left out and the record is still produced. *)
Theorem call_record_fields (source_lines : list string)
    (calls calls' : list pyobj) (lineno col_offset : Z) (func : ast.node)
    (args : list ast.node) (keywords : list (option string * ast.node)) :
  extract_calls_body source_lines calls
                     (ast.Call lineno col_offset func args keywords)
  = Ok calls' ->
  exists r,
    calls' = (calls ++ [r])%list
    /\ keys r
       = (call_record_keys
          ++ if line_in_range lineno source_lines
             then [PyStr "source_code"] else [])%list
    /\ getitem r (PyStr "lineno") = Ok (PyInt lineno)
    /\ getitem r (PyStr "col_offset") = Ok (PyInt col_offset)
    /\ (line_in_range lineno source_lines = true ->
        getitem r (PyStr "source_code")
        = Ok (PyStr (strip (nth (Z.to_nat (lineno - 1)) source_lines ""))))
    /\ (line_in_range lineno source_lines = false ->
        has_key r "source_code" = false).
Proof.
  rewrite extract_calls_body_call.
  destruct (for_each _ _ _) as [a|e]; simpl; [|discriminate].
  destruct (for_each _ _ _) as [a'|e]; simpl; [|discriminate].
  intros H. injection H as <-. eexists. split; [reflexivity|].
  unfold source_code_field. rewrite line_in_range_spec.
  destruct (line_in_range lineno source_lines); simpl;
    repeat split; auto; discriminate.
Qed.

(** X9.  The function of a record is [None] exactly when the callee is
    neither a name nor an attribute access (a call of a call, of a
    subscript, of a lambda), and then the module is [None] too; the module
    is a text only for an attribute access. *)
Theorem callee_unresolved (source_lines : list string)
    (calls calls' : list pyobj) (lineno col_offset : Z) (func : ast.node)
    (args : list ast.node) (keywords : list (option string * ast.node)) :
  extract_calls_body source_lines calls
                     (ast.Call lineno col_offset func args keywords)
  = Ok calls' ->
  exists r,
    calls' = (calls ++ [r])%list
    /\ (getitem r (PyStr "function") = Ok PyNone
        <-> (forall id, func <> ast.Name id) /\ is_attribute func = false)
    /\ (getitem r (PyStr "function") = Ok PyNone ->
        getitem r (PyStr "module") = Ok PyNone)
    /\ (is_attribute func = false ->
        getitem r (PyStr "module") = Ok PyNone).
Proof.
  rewrite extract_calls_body_call.
  destruct (for_each _ _ _) as [a|e]; simpl; [|discriminate].
  destruct (for_each _ _ _) as [a'|e]; simpl; [|discriminate].
  intros H. injection H as <-. eexists. split; [reflexivity|].
  destruct func; simpl; repeat split; auto; try discriminate;
    try (intros [Hname Hattr]; try discriminate;
         exfalso; eapply Hname; reflexivity).
Qed.

Lemma enumerate_length {A : Type} (l : list A) :
  forall i, Datatypes.length (enumerate i l) = Datatypes.length l.
Proof. induction l; simpl; auto. Qed.

(** X10.  Whatever the names of the keywords: the first keys of the
    arguments are [arg_0], [arg_1], ... in argument order, one per
    positional argument; the mapping has at least as many entries as there
    are positional arguments and at most that many plus the number of
    distinct keyword names; and the entry under a keyword name holds the
    normalized value of the last keyword of that name. *)
Theorem arguments_last_keyword_wins (source_lines : list string)
    (calls calls' : list pyobj) (lineno col_offset : Z) (func : ast.node)
    (args : list ast.node) (keywords : list (option string * ast.node)) :
  extract_calls_body source_lines calls
                     (ast.Call lineno col_offset func args keywords)
  = Ok calls' ->
  exists r a,
    calls' = (calls ++ [r])%list
    /\ getitem r (PyStr "arguments") = Ok (PyDict a)
    /\ firstn (Datatypes.length args) (map fst a)
       = map (fun i => PyStr (arg_key i)) (seq 0 (Datatypes.length args))
    /\ (Datatypes.length args <= Datatypes.length a
        <= Datatypes.length args + distinct_keywords keywords)%nat
    /\ (forall before name value after,
           keywords = (before ++ (name, value) :: after)%list ->
           Forall (fun kw => fst kw <> name) after ->
           exists v, extract_value value = Ok v
                     /\ dict_find a (optional_str name) = Some v).
Proof.
  rewrite extract_calls_body_call.
  destruct (for_each _ (enumerate _ _) _) as [a1|e] eqn:E1;
    simpl; [|discriminate].
  destruct (for_each _ keywords a1) as [a2|e] eqn:E2; simpl; [|discriminate].
  intros H. injection H as <-.
  apply positional_result in E1 as (vs & Hvs & ->);
    [|constructor|intros j _ []].
  simpl in E2. pose proof (Forall2_length Hvs) as Hlen.
  pose proof (positional_entries_str_keys 0 vs) as Hstr.
  pose proof (positional_entries_keys 0 vs) as Hkeys.
  destruct (keyword_result py_str _ _ _ E2 Hstr)
    as (Hstr2 & [extra Hextra] & Hin & Hnd).
  exists (PyDict (call_info_fields lineno col_offset (callee_function func)
                    (callee_module func) a2
                  ++ source_code_field lineno source_lines)), a2.
  split; [reflexivity|]. split; [reflexivity|].
  assert (Datatypes.length (map fst (positional_entries 0 vs))
          = Datatypes.length args) as Hlen1
      by (rewrite Hkeys, length_map, length_seq; lia).
  split; [|split; [split|]].
  - rewrite Hextra, Hkeys, Hlen.
    rewrite firstn_app, length_map, length_seq, Nat.sub_diag, app_nil_r.
    apply firstn_all2. rewrite length_map, length_seq. lia.
  - rewrite <- (length_map fst a2), Hextra, length_app, Hlen1. lia.
  - assert (incl (map fst a2)
                 (map fst (positional_entries 0 vs)
                  ++ map optional_str
                         (nodup keyword_name_dec (map fst keywords)))) as Hincl.
    { intros k Hk. apply Hin in Hk. apply in_app_iff.
      destruct Hk as [Hk|Hk]; [now left|right].
      apply in_map_iff in Hk as (name & <- & Hname).
      apply in_map. now apply (nodup_In keyword_name_dec). }
    apply NoDup_incl_length in Hincl.
    + rewrite length_app, !length_map in Hincl.
      unfold distinct_keywords. rewrite <- Hlen1, !length_map. exact Hincl.
    + apply Hnd. rewrite Hkeys. apply arg_keys_NoDup.
  - intros before name value after -> Hafter.
    eapply keyword_find_last; eauto.
Qed.

Lemma extract_calls_loop_order (source_lines : list string)
    (nodes : list ast.node) :
  forall calls0 calls : list pyobj,
    for_each (extract_calls_body source_lines) nodes calls0 = Ok calls ->
    exists records,
      calls = (calls0 ++ records)%list
      /\ Forall2 (fun node r =>
                    extract_calls_body source_lines [] node = Ok [r])
                 (filter is_call nodes) records.
Proof.
  induction nodes as [|n nodes IH]; intros calls0 calls H; simpl in H.
  - injection H as <-. exists []. rewrite app_nil_r. split; [reflexivity|].
    constructor.
  - rewrite extract_calls_body_append in H.
    destruct (extract_calls_body source_lines [] n) as [rs|e] eqn:E;
      simpl in H; [|discriminate].
    apply IH in H as (records & -> & Hrecords).
    pose proof (extract_calls_body_records py_str _ _ _ E) as Hrs.
    simpl. destruct (is_call n).
    + destruct Hrs as [r ->]. exists (r :: records).
      rewrite <- app_assoc. split; [reflexivity|]. constructor; auto.
    + subst rs. exists records. rewrite app_nil_r. auto.
Qed.

(** X11.  The call records come in the order in which the walk reaches the
    call nodes, one record per call node: the i-th record is the record of
    the i-th call node of the walk. *)
Theorem call_records_in_walk_order (tree : ast.node)
    (source_lines : list string) (calls : list pyobj) :
  extract_calls tree source_lines = Ok calls ->
  Forall2 (fun node r => extract_calls_body source_lines [] node = Ok [r])
          (filter is_call (ast.walk tree)) calls.
Proof.
  intros H. apply extract_calls_loop_order in H as (records & -> & H).
  exact H.
Qed.

Lemma preorder_child_shorter (n c : ast.node) :
  In c (ast.iter_child_nodes n) ->
  (Datatypes.length (ast.preorder c) < Datatypes.length (ast.preorder n))%nat.
Proof.
  intros Hc. rewrite (preorder_unfold n). simpl.
  induction (ast.iter_child_nodes n) as [|x l IH]; [destruct Hc|].
  simpl. rewrite length_app. destruct Hc as [->|Hc]; [lia|].
  apply IH in Hc. lia.
Qed.

(** Every node below a yielded node is yielded after it. *)
Lemma walk_queue_descendants_later (k : nat) :
  forall (n d : ast.node) (fuel : nat) (todo before after : list ast.node),
    (Datatypes.length (ast.preorder n) <= k)%nat ->
    (Datatypes.length (flat_map ast.preorder todo) <= fuel)%nat ->
    ast.walk_queue fuel todo = (before ++ n :: after)%list ->
    In d (flat_map ast.preorder (ast.iter_child_nodes n)) ->
    In d after.
Proof.
  induction k as [|k IH]; intros n d fuel todo before after Hk Hfuel Hwalk Hd.
  - rewrite preorder_unfold in Hk. simpl in Hk. lia.
  - apply in_flat_map in Hd as (c & Hc & Hd).
    pose proof (walk_queue_children_later fuel todo before after n Hfuel Hwalk
                                          c Hc) as Hafter.
    apply in_split in Hafter as (a1 & a2 & ->).
    rewrite preorder_unfold in Hd. destruct Hd as [<-|Hd].
    + apply in_elt.
    + apply in_app_iff. right. right.
      apply (IH c d fuel todo (before ++ n :: a1)%list a2).
      * pose proof (preorder_child_shorter n c Hc). lia.
      * exact Hfuel.
      * rewrite Hwalk, <- app_assoc. reflexivity.
      * exact Hd.
Qed.

Lemma Forall2_In_l {A B : Type} (R : A -> B -> Prop)
    (l : list A) (l' : list B) (x : A) :
  Forall2 R l l' -> In x l -> exists y, In y l' /\ R x y.
Proof.
  induction 1 as [|x0 y0 l l' Hxy _ IH]; intros [].
  - subst. exists y0. split; [now left|auto].
  - destruct IH as (y & Hy & Hr); auto. exists y. split; [now right|auto].
Qed.

(** X12.  The record of a call comes before the records of the calls nested
    in it (in its callee, its arguments or its keyword values, at any
    depth). *)
Theorem nested_call_after_outer (tree : ast.node)
    (source_lines : list string) (calls : list pyobj)
    (outer inner : ast.node) :
  extract_calls tree source_lines = Ok calls ->
  In outer (ast.preorder tree) -> is_call outer = true ->
  In inner (flat_map ast.preorder (ast.iter_child_nodes outer)) ->
  is_call inner = true ->
  exists earlier r_outer later r_inner,
    calls = (earlier ++ r_outer :: later)%list
    /\ extract_calls_body source_lines [] outer = Ok [r_outer]
    /\ In r_inner later
    /\ extract_calls_body source_lines [] inner = Ok [r_inner].
Proof.
  intros Hcalls Houter Hco Hinner Hci.
  apply extract_calls_loop_order in Hcalls as (records & -> & Hrecords).
  apply in_walk, in_split in Houter as (before & after & Hwalk).
  assert (In inner after) as Hafter.
  { apply (walk_queue_descendants_later
             (Datatypes.length (ast.preorder outer)) outer inner
             (Datatypes.length (ast.preorder tree)) [tree] before after);
      auto.
    simpl. now rewrite app_nil_r. }
  rewrite Hwalk, filter_app in Hrecords. simpl in Hrecords.
  rewrite Hco in Hrecords.
  apply Forall2_app_inv_l in Hrecords as (earlier & rest & _ & Hrest & ->).
  inversion Hrest as [|? r_outer ? later Hr Hlater]; subst.
  destruct (Forall2_In_l _ _ _ inner Hlater) as (r_inner & Hin & Hri).
  { apply filter_In. auto. }
  exists earlier, r_outer, later, r_inner. auto.
Qed.

Lemma for_each_raises {A S : Type} (body : S -> A -> M S) (l : list A)
    (x : A) :
  In x l -> (forall s, exists e, body s x = Raise e) ->
  forall s, exists e, for_each body l s = Raise e.
Proof.
  intros Hx Hraise. induction l as [|x0 l IH]; intros s; [destruct Hx|].
  simpl. destruct Hx as [->|Hx].
  - destruct (Hraise s) as [e ->]. simpl. eauto.
  - destruct (body s x0) as [s'|e]; simpl; eauto.
Qed.

Lemma for_each_raise_inv {A S : Type} (body : S -> A -> M S)
    (P : exn -> Prop) (l : list A) :
  (forall s x e, In x l -> body s x = Raise e -> P e) ->
  forall s e, for_each body l s = Raise e -> P e.
Proof.
  induction l as [|x l IH]; intros Hbody s e H; simpl in H; [discriminate|].
  destruct (body s x) as [s'|e'] eqn:E; simpl in H.
  - eapply IH; eauto. intros. eapply Hbody; eauto. now right.
  - injection H as <-. eapply Hbody; eauto. now left.
Qed.

Lemma in_enumerate {A : Type} (l : list A) (x : A) :
  In x l -> forall i, exists j, In (j, x) (enumerate i l).
Proof.
  induction l as [|x0 l IH]; intros [] i; simpl.
  - subst. eauto.
  - destruct (IH H (S i)) as [j Hj]. eauto.
Qed.

Lemma positional_step_raise (a : list (pyobj * pyobj)) (arg : nat * ast.node)
    (e : exn) :
  positional_step py_str a arg = Raise e <-> extract_value (snd arg) = Raise e.
Proof.
  unfold positional_step.
  destruct (extract_value (snd arg)); simpl; split; congruence.
Qed.

Lemma keyword_step_raise (a : list (pyobj * pyobj))
    (kw : option string * ast.node) (e : exn) :
  keyword_step py_str a kw = Raise e <-> extract_value (snd kw) = Raise e.
Proof.
  unfold keyword_step.
  destruct (extract_value (snd kw)); simpl; split; congruence.
Qed.

(** A fault of the loop body is a fault of the normalizer on an argument,
    a [TypeError]. *)
Lemma extract_calls_body_raise (source_lines : list string)
    (calls : list pyobj) (node : ast.node) (e : exn) :
  extract_calls_body source_lines calls node = Raise e ->
  exists msg, e = TypeError msg.
Proof.
  destruct node; try discriminate. rewrite extract_calls_body_call.
  destruct (for_each _ (enumerate _ _) _) as [a|e1] eqn:E1; simpl.
  - destruct (for_each _ keywords a) as [a'|e2] eqn:E2; simpl;
      [discriminate|].
    intros H. injection H as <-.
    apply (for_each_raise_inv (keyword_step py_str)
             (fun e => exists msg, e = TypeError msg) keywords)
      with (s := a); [|exact E2].
    intros s kw e _ He.
    apply keyword_step_raise in He. eapply extract_value_raise; eauto.
  - intros H. injection H as <-.
    apply (for_each_raise_inv (positional_step py_str)
             (fun e => exists msg, e = TypeError msg) (enumerate 0 args))
      with (s := @nil (pyobj * pyobj)); [|exact E1].
    intros s arg e _ He.
    apply positional_step_raise in He. eapply extract_value_raise; eauto.
Qed.

(** X13.  One argument that cannot be normalized, in any call of the tree,
    makes the whole extraction fail with a [TypeError]: no record is
    returned, not even for the other calls.  The extractor has no other
    fault. *)
Theorem unhashable_argument_fails_extraction (tree : ast.node)
    (source_lines : list string) (lineno col_offset : Z) (func : ast.node)
    (args : list ast.node) (keywords : list (option string * ast.node))
    (arg : ast.node) :
  In (ast.Call lineno col_offset func args keywords) (ast.preorder tree) ->
  In arg args \/ In arg (map snd keywords) ->
  aligned arg = true -> keys_hashable arg = false ->
  (exists msg, extract_calls tree source_lines = Raise (TypeError msg))
  /\ (forall e, extract_calls tree source_lines = Raise e ->
                exists msg, e = TypeError msg).
Proof.
  intros Hcall Harg Ha Hh.
  assert (forall e, extract_calls tree source_lines = Raise e ->
                    exists msg, e = TypeError msg) as Honly.
  { intros e.
    apply (for_each_raise_inv (extract_calls_body source_lines)
             (fun e => exists msg, e = TypeError msg)).
    intros s x e' _. apply extract_calls_body_raise. }
  split; [|exact Honly].
  destruct (extract_value_fault arg Ha Hh) as [e He].
  destruct (for_each_raises (extract_calls_body source_lines)
              (ast.walk tree)
              (ast.Call lineno col_offset func args keywords))
    with (s := @nil pyobj) as [e' He'].
  - now apply in_walk.
  - intros s. rewrite extract_calls_body_call.
    destruct Harg as [Harg|Harg].
    + destruct (in_enumerate args arg Harg 0%nat) as [j Hj].
      destruct (for_each_raises (positional_step py_str) _ _ Hj)
        with (s := @nil (pyobj * pyobj)) as [e1 ->].
      * intros a. exists e. now apply positional_step_raise.
      * simpl. eauto.
    + destruct (for_each _ (enumerate _ _) _) as [a|e1]; simpl; [|eauto].
      apply in_map_iff in Harg as (kw & <- & Hkw).
      destruct (for_each_raises (keyword_step py_str) _ _ Hkw)
        with (s := a) as [e2 ->].
      * intros a'. exists e. now apply keyword_step_raise.
      * simpl. eauto.
  - destruct (Honly e' He') as [msg ->]. eauto.
Qed.

(** *** The lines of the text *)

Lemma split_lines_not_empty (s : string) : split_lines s <> [].
Proof.
  destruct s as [|c rest]; simpl; [discriminate|].
  destruct (Ascii.eqb c "010"%char); [discriminate|].
  destruct (split_lines rest); discriminate.
Qed.

Lemma split_lines_no_line_feed (s : string) :
  Forall (fun line => has_line_feed line = false) (split_lines s).
Proof.
  induction s as [|c rest IH]; simpl.
  - constructor; auto.
  - destruct (Ascii.eqb c "010"%char) eqn:Ec.
    + constructor; auto.
    + destruct (split_lines rest) as [|line lines]; constructor; auto.
      * simpl. now rewrite Ec.
      * inversion IH; subst. simpl. now rewrite Ec.
      * now inversion IH.
Qed.

(** X14.  The lines of a text joined by line feeds are the text again, so
    the line a record shows is the line of the text with that number; a
    text has at least one line, and no line holds a line feed. *)
Theorem split_lines_join (s : string) :
  String.concat (String "010"%char EmptyString) (split_lines s) = s
  /\ (1 <= Datatypes.length (split_lines s))%nat
  /\ Forall (fun line => has_line_feed line = false) (split_lines s).
Proof.
  induction s as [|c rest (IHjoin & IHlen & IHfeed)].
  - simpl. repeat split; auto.
  - simpl. destruct (Ascii.eqb c "010"%char) eqn:Ec.
    + apply Ascii.eqb_eq in Ec. subst c.
      destruct (split_lines rest) as [|line lines] eqn:E;
        [now apply split_lines_not_empty in E|].
      repeat split.
      * rewrite <- IHjoin. reflexivity.
      * simpl. lia.
      * constructor; auto.
    + destruct (split_lines rest) as [|line lines] eqn:E;
        [now apply split_lines_not_empty in E|].
      repeat split.
      * rewrite <- IHjoin. destruct lines; reflexivity.
      * simpl. lia.
      * inversion IHfeed; subst. constructor; auto.
        simpl. now rewrite Ec.
Qed.

Lemma lstrip_start (s : string) : starts_with_space (lstrip s) = false.
Proof.
  induction s as [|c rest IH]; simpl; auto.
  destruct (isspace c) eqn:E; simpl; auto.
Qed.

Lemma rstrip_end (s : string) : ends_with_space (rstrip s) = false.
Proof.
  induction s as [|c rest IH]; simpl; auto.
  destruct (rstrip rest) as [|c' kept] eqn:E.
  - destruct (isspace c) eqn:Ec; simpl; auto.
  - simpl in *. exact IH.
Qed.

Lemma rstrip_start (s : string) :
  starts_with_space s = false -> starts_with_space (rstrip s) = false.
Proof.
  destruct s as [|c rest]; simpl; auto. intros Hc.
  destruct (rstrip rest); [rewrite Hc|]; simpl; auto.
Qed.

Lemma lstrip_line_feed (s : string) :
  has_line_feed s = false -> has_line_feed (lstrip s) = false.
Proof.
  induction s as [|c rest IH]; simpl; auto. intros H.
  apply orb_false_elim in H as [Hc Hrest].
  destruct (isspace c); auto. simpl. now rewrite Hc, Hrest.
Qed.

Lemma rstrip_line_feed (s : string) :
  has_line_feed s = false -> has_line_feed (rstrip s) = false.
Proof.
  induction s as [|c rest IH]; simpl; auto. intros H.
  apply orb_false_elim in H as [Hc Hrest]. specialize (IH Hrest).
  destruct (rstrip rest) as [|c' kept].
  - destruct (isspace c); simpl; auto. now rewrite Hc.
  - cbn [has_line_feed] in *. now rewrite Hc, IH.
Qed.

(** X15.  The source line a record shows has no white space at its start
    or end and no line feed in it. *)
Theorem source_code_is_trimmed (source_code : string)
    (calls calls' : list pyobj) (lineno col_offset : Z) (func : ast.node)
    (args : list ast.node) (keywords : list (option string * ast.node)) :
  extract_calls_body (split_lines source_code) calls
                     (ast.Call lineno col_offset func args keywords)
  = Ok calls' ->
  exists r,
    calls' = (calls ++ [r])%list
    /\ forall s,
         getitem r (PyStr "source_code") = Ok (PyStr s) ->
         starts_with_space s = false /\ ends_with_space s = false
         /\ has_line_feed s = false.
Proof.
  rewrite extract_calls_body_call.
  destruct (for_each _ _ _) as [a|e]; simpl; [|discriminate].
  destruct (for_each _ _ _) as [a'|e]; simpl; [|discriminate].
  intros H. injection H as <-. eexists. split; [reflexivity|].
  intros s. unfold source_code_field.
  destruct ((0 <=? lineno - 1) && _); simpl; [|discriminate].
  intros H. injection H as <-. unfold strip. repeat split.
  - apply rstrip_start, lstrip_start.
  - apply rstrip_end.
  - apply rstrip_line_feed, lstrip_line_feed.
    pose proof (split_lines_no_line_feed source_code) as Hfeed.
    rewrite Forall_forall in Hfeed.
    destruct (nth_in_or_default (Z.to_nat (lineno - 1))
                                (split_lines source_code) "") as [Hin | ->];
      auto.
Qed.

(** *** The envelope *)

Section Outcome.

Variable ast_parse : string -> M ast.node.

#[local] Abbreviation parse_python_code := (parse_python_code py_str ast_parse).

Lemma extract_calls_raise (tree : ast.node) (source_lines : list string)
    (e : exn) :
  extract_calls tree source_lines = Raise e -> exists msg, e = TypeError msg.
Proof.
  apply (for_each_raise_inv (extract_calls_body source_lines)
           (fun e => exists msg, e = TypeError msg)).
  intros s x e' _. apply extract_calls_body_raise.
Qed.

(** X16.  The result says success exactly when the text parsed and the
    call extraction returned; it then carries the text unchanged, the
    language and the error [None]. *)
Theorem success_iff_parsed_and_extracted (source_code : string) :
  (getitem (parse_python_code source_code) (PyStr "success")
   = Ok (PyBool true)
   <-> exists tree calls,
         ast_parse source_code = Ok tree
         /\ extract_calls tree (split_lines source_code) = Ok calls)
  /\ (getitem (parse_python_code source_code) (PyStr "success")
      = Ok (PyBool true) ->
      getitem (parse_python_code source_code) (PyStr "source_code")
      = Ok (PyStr source_code)
      /\ getitem (parse_python_code source_code) (PyStr "language")
         = Ok (PyStr "python")
      /\ getitem (parse_python_code source_code) (PyStr "error") = Ok PyNone).
Proof.
  unfold parse_python_code.
  destruct (ast_parse source_code) as [tree|[str lineno offset text|t str]];
    cbn [bind].
  - destruct (extract_calls tree (split_lines source_code))
      as [calls|[str lineno offset text|t str]] eqn:E; cbn [bind];
      (split; [split|]); simpl; try discriminate; eauto;
      intros (tree' & calls' & Ht & Hc); injection Ht as <-; congruence.
  - (split; [split|]); simpl; try discriminate.
    intros (tree' & calls' & Ht & Hc). discriminate.
  - (split; [split|]); simpl; try discriminate.
    intros (tree' & calls' & Ht & Hc). discriminate.
Qed.

(** X17.  Every result has the field [success] with a boolean and the
    field [error], and the error is [None] exactly on success. *)
Theorem envelope_has_success_and_error (source_code : string) :
  exists b,
    getitem (parse_python_code source_code) (PyStr "success") = Ok (PyBool b)
    /\ has_key (parse_python_code source_code) "error" = true
    /\ (getitem (parse_python_code source_code) (PyStr "error") = Ok PyNone
        <-> b = true).
Proof.
  unfold parse_python_code.
  destruct (ast_parse source_code) as [tree|[str lineno offset text|t str]];
    cbn [bind].
  - destruct (extract_calls tree (split_lines source_code))
      as [calls|[str lineno offset text|t str]]; cbn [bind].
    + exists true. simpl. repeat split; auto.
    + exists false. simpl. repeat split; auto; discriminate.
    + exists false. simpl. repeat split; auto; discriminate.
  - exists false. simpl. repeat split; auto; discriminate.
  - exists false. simpl. repeat split; auto; discriminate.
Qed.

(** X18.  The error of a failure always has a type and a message, both
    texts.  After a parse the failure is the normalizer's [TypeError]; a
    parser exception that is no syntax error is passed on under its class
    name; in both cases the error has these two fields only, while the
    line, offset and text are there for a syntax error alone. *)
Theorem failure_error_shape (source_code : string) :
  getitem (parse_python_code source_code) (PyStr "success")
  = Ok (PyBool false) ->
  exists err t m,
    getitem (parse_python_code source_code) (PyStr "error") = Ok err
    /\ getitem err (PyStr "type") = Ok (PyStr t)
    /\ getitem err (PyStr "message") = Ok (PyStr m)
    /\ (forall tree,
           ast_parse source_code = Ok tree ->
           t = "TypeError" /\ keys err = [PyStr "type"; PyStr "message"])
    /\ (forall t' m',
           ast_parse source_code = Raise (Exception t' m') ->
           t = t' /\ m = m' /\ keys err = [PyStr "type"; PyStr "message"])
    /\ (keys err = [PyStr "type"; PyStr "message"; PyStr "lineno";
                    PyStr "offset"; PyStr "text"]
        <-> exists str lineno offset text,
              ast_parse source_code
              = Raise (SyntaxError str lineno offset text)).
Proof.
  unfold parse_python_code.
  destruct (ast_parse source_code) as [tree|[str lineno offset text|t str]];
    cbn [bind].
  - destruct (extract_calls tree (split_lines source_code))
      as [calls|e] eqn:E; cbn [bind]; [discriminate|].
    destruct (extract_calls_raise _ _ _ E) as [msg ->]. intros _.
    do 3 eexists. split; [reflexivity|]. split; [reflexivity|].
    split; [reflexivity|]. repeat split; try discriminate; auto.
    intros (? & ? & ? & ? & ?). discriminate.
  - intros _. do 3 eexists. split; [reflexivity|]. split; [reflexivity|].
    split; [reflexivity|]. repeat split; try discriminate; eauto.
  - intros _. do 3 eexists. split; [reflexivity|]. split; [reflexivity|].
    split; [reflexivity|]. repeat split; try discriminate; try congruence.
    intros (? & ? & ? & ? & ?). discriminate.
Qed.

End Outcome.

End Coverage.

(** ** The further properties on the example texts *)

Import MoreExamples.

Lemma extract_value_well_typed_example :
  exists r,
    extract_value str_of_int scalar_key_dict = Ok r /\ well_typed r = true.
Proof.
  eexists. split; [reflexivity|].
  apply (extract_value_well_typed str_of_int scalar_key_dict). reflexivity.
Defined.

Lemma extract_value_fault_iff_example :
  aligned list_key_dict = true
  /\ keys_hashable list_key_dict = false
  /\ exists msg,
       extract_value str_of_int list_key_dict = Raise (TypeError msg).
Proof.
  split; [reflexivity|]. split; [reflexivity|].
  apply (extract_value_fault_iff str_of_int list_key_dict eq_refl).
  reflexivity.
Defined.

Lemma plain_import_records_example :
  In plain_import (ast.preorder plain_import_tree)
  /\ extract_imports_body [] plain_import
     = [PyDict [(PyStr "module", PyStr "os");
                (PyStr "names", PyList [PyStr "os"]);
                (PyStr "alias", PyStr "");
                (PyStr "lineno", PyInt 1)];
        PyDict [(PyStr "module", PyStr "sys");
                (PyStr "names", PyList [PyStr "sys"]);
                (PyStr "alias", PyStr "s");
                (PyStr "lineno", PyInt 1)]]
  /\ exists r,
       In r (extract_imports plain_import_tree)
       /\ getitem r (PyStr "module") = Ok (PyStr "sys")
       /\ getitem r (PyStr "alias") = Ok (PyStr "s").
Proof.
  assert (In plain_import (ast.preorder plain_import_tree)) as Hin
      by (simpl; auto).
  split; [exact Hin|].
  destruct (plain_import_records plain_import_tree 1 _ Hin) as [Hbody Hall].
  split.
  - exact (Hbody []).
  - destruct (Hall {| ast.name := "sys"; ast.asname := Some "s" |})
      as (r & Hr & _ & Hmodule & _ & Halias & _); [simpl; auto|].
    exists r. auto.
Defined.

Lemma call_record_fields_example :
  exists r,
    extract_calls_body str_of_int [] [] scenario_C_call = Ok [r]
    /\ keys r = call_record_keys
    /\ has_key r "source_code" = false.
Proof.
  destruct (call_record_fields str_of_int [] [] _ 1 0
              (ast.Attribute (ast.Attribute (ast.Name "pkg") "storage")
                             "upload")
              [ast.Name "x"] [] eq_refl)
    as (r & Hr & Hkeys & _ & _ & _ & Hout).
  exists r. split; [|split].
  - simpl in Hr. now rewrite <- Hr.
  - simpl in Hkeys. exact Hkeys.
  - apply Hout. reflexivity.
Defined.

Lemma callee_unresolved_example :
  exists r,
    extract_calls_body str_of_int ["f()()"] [] call_of_call = Ok [r]
    /\ getitem r (PyStr "function") = Ok PyNone
    /\ getitem r (PyStr "module") = Ok PyNone.
Proof.
  destruct (callee_unresolved str_of_int ["f()()"] [] _ 1 0
              (ast.Call 1 0 (ast.Name "f") [] []) [] [] eq_refl)
    as (r & Hr & Hfun & Hmod & _).
  assert (getitem r (PyStr "function") = Ok PyNone) as Hnone.
  { apply Hfun. split; [discriminate|reflexivity]. }
  exists r. split; [|split; auto].
  simpl in Hr. now rewrite <- Hr.
Defined.

Lemma arguments_last_keyword_wins_example :
  exists r a,
    extract_calls_body str_of_int ["f(1, arg_0=2)"] [] colliding_call
    = Ok [r]
    /\ getitem r (PyStr "arguments") = Ok (PyDict a)
    /\ dict_find a (PyStr "arg_0") = Some (type_value "number" (PyInt 2)).
Proof.
  destruct (arguments_last_keyword_wins str_of_int ["f(1, arg_0=2)"] [] _
              1 0 (ast.Name "f") [ast.Constant (PyInt 1)]
              [(Some "arg_0", ast.Constant (PyInt 2))] eq_refl)
    as (r & a & Hr & Ha & _ & _ & Hlast).
  destruct (Hlast [] (Some "arg_0") (ast.Constant (PyInt 2)) [] eq_refl)
    as (v & Hv & Hfind); [constructor|].
  exists r, a. split; [|split; [exact Ha|]].
  - simpl in Hr. now rewrite <- Hr.
  - simpl in Hv. injection Hv as <-. exact Hfind.
Defined.

Lemma call_records_in_walk_order_example :
  exists calls,
    extract_calls str_of_int scenario_E_tree ["f(g(1))"] = Ok calls
    /\ Forall2 (fun node r =>
                  extract_calls_body str_of_int ["f(g(1))"] [] node = Ok [r])
               [outer_call; inner_call] calls.
Proof.
  eexists. split; [reflexivity|].
  apply (call_records_in_walk_order str_of_int scenario_E_tree ["f(g(1))"]).
  reflexivity.
Defined.

Lemma nested_call_after_outer_example :
  exists calls earlier r_outer later r_inner,
    extract_calls str_of_int scenario_E_tree ["f(g(1))"] = Ok calls
    /\ calls = (earlier ++ r_outer :: later)%list
    /\ extract_calls_body str_of_int ["f(g(1))"] [] outer_call = Ok [r_outer]
    /\ In r_inner later
    /\ extract_calls_body str_of_int ["f(g(1))"] [] inner_call = Ok [r_inner].
Proof.
  eexists.
  destruct (nested_call_after_outer str_of_int scenario_E_tree ["f(g(1))"]
              _ outer_call inner_call eq_refl)
    as (earlier & r_outer & later & r_inner & H);
    [simpl; auto|reflexivity|simpl; auto|reflexivity|].
  exists earlier, r_outer, later, r_inner. split; [reflexivity|exact H].
Defined.

Lemma unhashable_argument_fails_extraction_example :
  In (ast.Call 1 0 (ast.Name "f") [list_key_dict] [])
     (ast.preorder list_key_tree)
  /\ aligned list_key_dict = true
  /\ keys_hashable list_key_dict = false
  /\ exists msg,
       extract_calls str_of_int list_key_tree ["f({[1]: 2})"]
       = Raise (TypeError msg).
Proof.
  assert (In (ast.Call 1 0 (ast.Name "f") [list_key_dict] [])
             (ast.preorder list_key_tree)) as Hin by (simpl; auto).
  split; [exact Hin|]. split; [reflexivity|]. split; [reflexivity|].
  apply (unhashable_argument_fails_extraction str_of_int list_key_tree
           ["f({[1]: 2})"] 1 0 (ast.Name "f") [list_key_dict] []
           list_key_dict Hin);
    [left; simpl; auto|reflexivity|reflexivity].
Defined.

Lemma source_code_is_trimmed_example :
  exists r,
    extract_calls_body str_of_int (split_lines indented_text) [] indented_call
    = Ok [r]
    /\ getitem r (PyStr "source_code") = Ok (PyStr "upload(x)")
    /\ starts_with_space "upload(x)" = false.
Proof.
  destruct (source_code_is_trimmed str_of_int indented_text [] _ 2 4
              (ast.Name "upload") [ast.Name "x"] [] eq_refl)
    as (r & Hr & Htrim).
  exists r. simpl in Hr. injection Hr as <-.
  split; [reflexivity|]. split; [reflexivity|].
  apply (Htrim "upload(x)"). reflexivity.
Defined.

Lemma failure_error_shape_example :
  getitem (parse_python_code str_of_int sample_parse "f(") (PyStr "success")
  = Ok (PyBool false)
  /\ exists err,
       getitem (parse_python_code str_of_int sample_parse "f(")
               (PyStr "error") = Ok err
       /\ keys err = [PyStr "type"; PyStr "message"; PyStr "lineno";
                      PyStr "offset"; PyStr "text"].
Proof.
  split; [reflexivity|].
  destruct (failure_error_shape str_of_int sample_parse "f(" eq_refl)
    as (err & t & m & Herr & _ & _ & _ & _ & Hsyntax).
  exists err. split; [exact Herr|].
  apply Hsyntax. do 4 eexists. reflexivity.
Defined.

Lemma mapping_literal_entries_example :
  extract_value str_of_int equal_keys_dict
  = Ok (type_value "dict"
          (PyDict [(PyInt 1, type_value "variable" (PyStr "b"))]))
  /\ exists items ps,
       type_value "dict"
         (PyDict [(PyInt 1, type_value "variable" (PyStr "b"))])
       = type_value "dict" (PyDict items)
       /\ (Datatypes.length items = 2%nat <-> distinct_values ps)
       /\ distinct_values (map fst items).
Proof.
  split; [reflexivity|].
  destruct (mapping_literal_entries str_of_int
              [Some (ast.Constant (PyInt 1)); Some (ast.Constant (PyBool true))]
              [ast.Name "a"; ast.Name "b"] _ eq_refl)
    as (items & ps & Hr & _ & _ & Hd & Hiff).
  exists items, ps. split; [exact Hr|]. split; [exact Hiff|exact Hd].
Defined.
